(** * The job store of webgui/database.py

    A shallow embedding of [Database], the SQLite-backed store of download
    jobs and their episodes, followed by the properties of its operations.

    The two tables are finite maps from the primary key to a row.  Each
    method of [Database] opens a connection, runs its statements and commits;
    here a method is a function on the store that returns either the method's
    result or the exception it raises, together with the store it leaves.
    [datetime.utcnow().isoformat()] is the argument [now] of the methods that
    read the clock. *)

From Stdlib Require Import ZArith String Ascii List Bool Lia.
From stdpp Require Import base option gmap strings list fin_maps sorting.

Local Open Scope string_scope.
Local Open Scope Z_scope.

(** ** Values held by a column *)

(** SQLite is dynamically typed: a column holds NULL, an integer or a text,
    whatever type the schema declares for it.  Values are stored as they are
    bound; the conversions of SQLite's column affinity are not part of the
    model. *)
Inductive value : Type :=
  | VNull
  | VInt (z : Z)
  | VText (s : string).

#[global] Instance value_eq_dec : EqDecision value.
Proof. solve_decision. Defined.

(** Comparison of SQL is three-valued: a comparison with NULL is NULL. *)
Definition sql_eq (a b : value) : option bool :=
  match a, b with
  | VNull, _ | _, VNull => None
  | _, _ => Some (bool_decide (a = b))
  end.

Definition sql_ne (a b : value) : option bool := negb <$> sql_eq a b.

Definition sql_not_in (a : value) (bs : list value) : option bool :=
  foldr (fun b acc =>
           match sql_ne a b, acc with
           | Some false, _ | _, Some false => Some false
           | Some true, Some true => Some true
           | _, _ => None
           end) (Some true) bs.

(** A WHERE clause keeps the rows on which it evaluates to true. *)
Definition sql_holds (c : option bool) : bool :=
  match c with Some true => true | _ => false end.

(** ** The enumerations *)

Module JobStatus.
Definition QUEUED : string := "queued".
Definition RUNNING : string := "running".
Definition SUCCESS : string := "success".
Definition FAILED : string := "failed".
Definition CANCELED : string := "canceled".
End JobStatus.

Module JobStage.
Definition INIT : string := "init".
Definition RESOLVE : string := "resolve".
Definition DOWNLOAD : string := "download".
Definition POSTPROCESS : string := "postprocess".
Definition DONE : string := "done".
End JobStage.

Module EpisodeStatus.
Definition PENDING : string := "pending".
Definition GET_STREAM : string := "get_stream".
Definition DOWNLOAD_VIDEO : string := "download_video".
Definition MERGE_VIDEO : string := "merge_video".
Definition DOWNLOAD_SUBTITLES : string := "download_subtitles".
Definition COMPLETE : string := "complete".
Definition FAILED : string := "failed".
End EpisodeStatus.

Definition STAGE_PROGRESS (stage : string) : option Z :=
  if decide (stage = JobStage.INIT) then Some 5
  else if decide (stage = JobStage.RESOLVE) then Some 15
  else if decide (stage = JobStage.DOWNLOAD) then Some 30
  else if decide (stage = JobStage.POSTPROCESS) then Some 95
  else if decide (stage = JobStage.DONE) then Some 100
  else None.

(** ** Rows *)

(** A row of [jobs]; [id] is the key of the table. *)
Module Job.
Record t : Type := mk {
  url : value;
  profile : value;
  extra_args : value;
  status : value;
  stage : value;
  progress_percent : value;
  progress_text : value;
  created_at : value;
  started_at : value;
  finished_at : value;
  error_message : value;
  log_file : value;
  pid : value
}.

#[global] Instance eq_dec : EqDecision t.
Proof. solve_decision. Defined.

(** The columns an UPDATE of this module assigns; [id], the key, is
    assigned by none. *)
Definition columns : list string :=
  ["url"; "profile"; "extra_args"; "status"; "stage"; "progress_percent";
   "progress_text"; "created_at"; "started_at"; "finished_at";
   "error_message"; "log_file"; "pid"].

(** [SET col = v] on one row. *)
Definition set (col : string) (v : value) (j : t) : t :=
  let '(mk a b c d e f g h i k l m n) := j in
  if decide (col = "url") then mk v b c d e f g h i k l m n
  else if decide (col = "profile") then mk a v c d e f g h i k l m n
  else if decide (col = "extra_args") then mk a b v d e f g h i k l m n
  else if decide (col = "status") then mk a b c v e f g h i k l m n
  else if decide (col = "stage") then mk a b c d v f g h i k l m n
  else if decide (col = "progress_percent") then mk a b c d e v g h i k l m n
  else if decide (col = "progress_text") then mk a b c d e f v h i k l m n
  else if decide (col = "created_at") then mk a b c d e f g v i k l m n
  else if decide (col = "started_at") then mk a b c d e f g h v k l m n
  else if decide (col = "finished_at") then mk a b c d e f g h i v l m n
  else if decide (col = "error_message") then mk a b c d e f g h i k v m n
  else if decide (col = "log_file") then mk a b c d e f g h i k l v n
  else if decide (col = "pid") then mk a b c d e f g h i k l m v
  else j.

(** The NOT NULL columns of the schema. *)
Definition not_null_columns : list string :=
  ["url"; "status"; "created_at"].
End Job.

(** A row of [episodes].  [job_id], [episode_number] and [title] are written
    by [create_episode] only, from arguments of the declared types. *)
Module Episode.
Record t : Type := mk {
  job_id : Z;
  episode_number : Z;
  title : string;
  status : value;
  progress_percent : value;
  stage_data : value;
  error_message : value;
  started_at : value;
  finished_at : value;
  log_file : value
}.

#[global] Instance eq_dec : EqDecision t.
Proof. solve_decision. Defined.

(** The columns an UPDATE of this module assigns. *)
Definition columns : list string :=
  ["status"; "progress_percent"; "stage_data"; "error_message";
   "started_at"; "finished_at"; "log_file"].

Definition set (col : string) (v : value) (e : t) : t :=
  let '(mk a b c d f g h i k l) := e in
  if decide (col = "status") then mk a b c v f g h i k l
  else if decide (col = "progress_percent") then mk a b c d v g h i k l
  else if decide (col = "stage_data") then mk a b c d f v h i k l
  else if decide (col = "error_message") then mk a b c d f g v i k l
  else if decide (col = "started_at") then mk a b c d f g h v k l
  else if decide (col = "finished_at") then mk a b c d f g h i v l
  else if decide (col = "log_file") then mk a b c d f g h i k v
  else e.

Definition not_null_columns : list string :=
  ["job_id"; "episode_number"; "title"; "status"].
End Episode.

(** ** The store *)

(** [jobs_seq] and [episodes_seq] are the entries of [sqlite_sequence]: the
    largest key an AUTOINCREMENT table has ever held. *)
Record store : Type := mkStore {
  jobs : gmap Z Job.t;
  jobs_seq : Z;
  episodes : gmap Z Episode.t;
  episodes_seq : Z
}.

Definition empty_store : store := mkStore ∅ 0 ∅ 0.

Definition with_jobs (js : gmap Z Job.t) (s : store) : store :=
  mkStore js (jobs_seq s) (episodes s) (episodes_seq s).

Definition with_episodes (es : gmap Z Episode.t) (s : store) : store :=
  mkStore (jobs s) (jobs_seq s) es (episodes_seq s).

(** A connection.  SQLite enforces foreign keys, and so runs the actions
    ON DELETE CASCADE declares, only on a connection that has executed
    [PRAGMA foreign_keys = ON]; a new connection has it off. *)
Record connection : Type := { foreign_keys : bool }.

(** [aiosqlite.connect(self.db_path, timeout=30.0)] *)
Definition connect : connection := {| foreign_keys := false |}.

(** ** Exceptions and the monad of the methods *)

Inductive exn : Type :=
  | ValueError (invalid_columns : gset string)
  | KeyError
  | OperationalError
  | IntegrityError.

Inductive outcome (A : Type) : Type :=
  | Return (a : A)
  | Raise (e : exn).
Arguments Return {A} a.
Arguments Raise {A} e.

Definition M (A : Type) : Type := store -> outcome A * store.

Definition ret {A} (a : A) : M A := fun s => (Return a, s).

Definition raise {A} (e : exn) : M A := fun s => (Raise e, s).

Definition bind {A B} (c : M A) (k : A -> M B) : M B :=
  fun s =>
    match c s with
    | (Return a, s') => k a s'
    | (Raise e, s') => (Raise e, s')
    end.

#[global] Instance M_ret : MRet M := @ret.
#[global] Instance M_bind : MBind M := fun A B k c => bind c k.

(** ** Statements *)

Section Statements.
Context {R : Type}.
Variable columns : list string.
Variable not_null_columns : list string.
Variable set : string -> value -> R -> R.

(** The assignments of an UPDATE on one row, in the order they are
    written. *)
Definition assign (sets : list (string * value)) (r : R) : R :=
  foldl (fun r' '(col, v) => set col v r') r sets.

(** An assignment of NULL to a NOT NULL column.  SQLite checks the
    constraint on the columns an UPDATE assigns. *)
Definition assigns_null (sets : list (string * value)) : bool :=
  existsb (fun '(col, v) =>
             bool_decide (col ∈ not_null_columns) && bool_decide (v = VNull))
          sets.

(** [UPDATE t SET sets WHERE cond]: the new table and the cursor's
    rowcount.  A statement that names an unknown column fails when it is
    prepared; a row that would break a NOT NULL constraint aborts the
    statement. *)
Definition sql_update (sets : list (string * value))
    (cond : Z -> R -> bool) (t : gmap Z R) : exn + (gmap Z R * Z) :=
  if negb (forallb (fun col => bool_decide (col ∈ columns)) (sets.*1))
  then inl OperationalError
  else
    let hit := filter (fun kr => cond kr.1 kr.2 = true) t in
    if negb (bool_decide (hit = ∅)) && assigns_null sets
    then inl IntegrityError
    else
      inr (map_imap
             (fun k r => Some (if cond k r then assign sets r else r)) t,
           Z.of_nat (size hit)).

(** [SELECT COUNT( * ) FROM t WHERE cond] *)
Definition sql_count (cond : Z -> R -> bool) (t : gmap Z R) : Z :=
  Z.of_nat (size (filter (fun kr => cond kr.1 kr.2 = true) t)).

(** [DELETE FROM t WHERE cond]: the rows that stay and the rowcount. *)
Definition sql_delete (cond : Z -> R -> bool) (t : gmap Z R)
    : gmap Z R * Z :=
  (filter (fun kr => cond kr.1 kr.2 = false) t,
   Z.of_nat (size (filter (fun kr => cond kr.1 kr.2 = true) t))).

(** The key an AUTOINCREMENT table gives a new row: one more than the
    largest key it has ever held. *)
Definition max_rowid (t : gmap Z R) : Z :=
  map_fold (fun k _ acc => Z.max k acc) 0 t.

Definition next_rowid (seq : Z) (t : gmap Z R) : Z :=
  Z.max seq (max_rowid t) + 1.
End Statements.

(** ** Dictionaries of Python, as lists of items in insertion order *)

Module Dict.
(** [d[k] = v]: the value of an existing key is replaced where the key
    stands, a new key goes to the end. *)
Fixpoint set {V} (k : string) (v : V) (d : list (string * V))
    : list (string * V) :=
  match d with
  | [] => [(k, v)]
  | (k', v') :: d' =>
      if decide (k' = k) then (k, v) :: d' else (k', v') :: set k v d'
  end.

(** [d.get(k)] *)
Fixpoint get {V} (k : string) (d : list (string * V)) : option V :=
  match d with
  | [] => None
  | (k', v') :: d' => if decide (k' = k) then Some v' else get k d'
  end.

End Dict.

(** ** The [json] module, as far as [stage_data] needs it *)

(** The values [json.dumps] and [json.loads] exchange, without floats:
    [None], booleans, integers, strings, lists and dictionaries with
    string keys.  A dictionary is the list of its items in insertion
    order.  A character of a string is a code point below 256. *)
#[local] Unset Elimination Schemes.
Inductive json : Type :=
  | JNull
  | JBool (b : bool)
  | JInt (z : Z)
  | JStr (s : string)
  | JList (items : list json)
  | JDict (items : list (string * json)).
#[local] Set Elimination Schemes.

Module Json.
Local Open Scope list_scope.

Definition QUOTE : ascii := Eval cbv in ascii_of_N 34.
Definition BACKSLASH : ascii := Eval cbv in ascii_of_N 92.

(** *** Encoding *)

Definition digit_char (d : N) : ascii := ascii_of_N (48 + d).

Fixpoint digits_fuel (fuel : nat) (n : N) (acc : list ascii) : list ascii :=
  match fuel with
  | O => acc
  | S fuel' =>
      let acc' := digit_char (n mod 10) :: acc in
      if (n <? 10)%N then acc' else digits_fuel fuel' (n / 10) acc'
  end.

(** The decimal digits of [n]; it has at most [log2 n + 1] of them. *)
Definition digits (n : N) : list ascii :=
  digits_fuel (S (N.to_nat (N.log2 n))) n [].

(** [int.__repr__] *)
Definition int_repr (z : Z) : list ascii :=
  match z with
  | Z0 => digits 0
  | Zpos p => digits (Npos p)
  | Zneg p => "-"%char :: digits (Npos p)
  end.

Definition hex_char (d : N) : ascii :=
  if (d <? 10)%N then ascii_of_N (48 + d) else ascii_of_N (87 + d).

(** One character of a string under [ensure_ascii]: the short escapes of
    [ESCAPE_DCT], the printable ASCII characters as they are, and
    [\u00xx] for the others. *)
Definition escape_char (c : ascii) : list ascii :=
  let n := N_of_ascii c in
  if decide (c = QUOTE) then [BACKSLASH; QUOTE]
  else if decide (c = BACKSLASH) then [BACKSLASH; BACKSLASH]
  else if (n =? 8)%N then [BACKSLASH; "b"%char]
  else if (n =? 12)%N then [BACKSLASH; "f"%char]
  else if (n =? 10)%N then [BACKSLASH; "n"%char]
  else if (n =? 13)%N then [BACKSLASH; "r"%char]
  else if (n =? 9)%N then [BACKSLASH; "t"%char]
  else if (32 <=? n)%N && (n <=? 126)%N then [c]
  else [BACKSLASH; "u"%char; "0"%char; "0"%char;
        hex_char (n / 16); hex_char (n mod 16)].

(** [encode_basestring_ascii] *)
Definition encode_string (s : string) : list ascii :=
  QUOTE :: concat (map escape_char (list_ascii_of_string s)) ++ [QUOTE].

(** [", ".join(texts)] *)
Fixpoint join (texts : list (list ascii)) : list ascii :=
  match texts with
  | [] => []
  | [t] => t
  | t :: rest => t ++ ","%char :: " "%char :: join rest
  end.

(** The encoder with its default settings: separators [", "] and [": "],
    keys in insertion order. *)
Fixpoint encode (v : json) : list ascii :=
  match v with
  | JNull => list_ascii_of_string "null"
  | JBool true => list_ascii_of_string "true"
  | JBool false => list_ascii_of_string "false"
  | JInt z => int_repr z
  | JStr s => encode_string s
  | JList items => "["%char :: join (map encode items) ++ ["]"%char]
  | JDict items =>
      "{"%char ::
      join (map (fun kv => encode_string kv.1
                             ++ ":"%char :: " "%char :: encode kv.2) items)
      ++ ["}"%char]
  end.

(** [json.dumps(v)] *)
Definition dumps (v : json) : string := string_of_list_ascii (encode v).
(** *** Decoding *)











Section Containers.
(** [scan_once] for the values inside a container. *)
Variable scan : list ascii -> option (json * list ascii).


End Containers.



End Json.

(** ** Job operations *)

Definition opt_text (o : option string) : value :=
  match o with Some t => VText t | None => VNull end.

(** Truth value of an optional string: [None] and the empty string are
    false. *)
Definition truthy_text (o : option string) : bool :=
  match o with
  | Some t => negb (bool_decide (t = ""))
  | None => false
  end.

(** Truth value of what [dict.get] returns. *)
Definition truthy (o : option value) : bool :=
  match o with
  | None | Some VNull => false
  | Some (VInt z) => negb (z =? 0)
  | Some (VText t) => negb (bool_decide (t = ""))
  end.

(** [UPDATE jobs SET sets WHERE cond], committed. *)
Definition update_jobs (sets : list (string * value))
    (cond : Z -> Job.t -> bool) : M Z :=
  fun s =>
    match sql_update Job.columns Job.not_null_columns Job.set sets cond (jobs s) with
    | inr (t', rowcount) => (Return rowcount, with_jobs t' s)
    | inl e => (Raise e, s)
    end.

(** [UPDATE episodes SET sets WHERE cond], committed. *)
Definition update_episodes (sets : list (string * value))
    (cond : Z -> Episode.t -> bool) : M Z :=
  fun s =>
    match sql_update Episode.columns Episode.not_null_columns Episode.set sets cond
            (episodes s) with
    | inr (t', rowcount) => (Return rowcount, with_episodes t' s)
    | inl e => (Raise e, s)
    end.

(** [DELETE FROM jobs WHERE cond] on connection [conn]: the episodes of a
    deleted job go with it when the connection enforces foreign keys. *)
Definition delete_jobs (conn : connection) (cond : Z -> Job.t -> bool)
    : M Z :=
  fun s =>
    let '(kept, rowcount) := sql_delete cond (jobs s) in
    let es :=
      if foreign_keys conn
      then filter (fun ke : Z * Episode.t =>
                     is_Some (jobs s !! Episode.job_id ke.2) ->
                     is_Some (kept !! Episode.job_id ke.2))
                  (episodes s)
      else episodes s in
    (Return rowcount, mkStore kept (jobs_seq s) es (episodes_seq s)).

Definition VALID_COLUMNS : gset string :=
  list_to_set
    ["url"; "profile"; "extra_args"; "status"; "stage";
     "progress_percent"; "progress_text"; "created_at";
     "started_at"; "finished_at"; "error_message"; "log_file"; "pid"].

Definition create_job (now : string) (url : string)
    (profile extra_args : option string) : M Z :=
  fun s =>
    let id := next_rowid (jobs_seq s) (jobs s) in
    let row :=
      {| Job.url := VText url;
         Job.profile := opt_text profile;
         Job.extra_args := opt_text extra_args;
         Job.status := VText JobStatus.QUEUED;
         Job.stage := VNull;
         Job.progress_percent := VInt 0;
         Job.progress_text := VNull;
         Job.created_at := VText now;
         Job.started_at := VNull;
         Job.finished_at := VNull;
         Job.error_message := VNull;
         Job.log_file := VNull;
         Job.pid := VNull |} in
    (Return id, mkStore (<[id := row]> (jobs s)) id (episodes s) (episodes_seq s)).

Definition get_job (job_id : Z) : M (option Job.t) :=
  fun s => (Return (jobs s !! job_id), s).

(** [kwargs] is the list of the keyword arguments of the call. *)
Definition update_job (job_id : Z) (kwargs : list (string * value))
    : M unit :=
  match kwargs with
  | [] => mret tt
  | _ :: _ =>
      let invalid_columns : gset string :=
        list_to_set (kwargs.*1) ∖ VALID_COLUMNS in
      if decide (invalid_columns = ∅) then
        _ ← update_jobs kwargs (fun id _ => id =? job_id);
        mret tt
      else raise (ValueError invalid_columns)
  end.

Definition update_progress (job_id : Z) (percent : Z)
    (stage text : option string) : M unit :=
  let updates := [("progress_percent", VInt percent)] in
  let updates :=
    if truthy_text stage then Dict.set "stage" (opt_text stage) updates
    else updates in
  let updates :=
    if truthy_text text then Dict.set "progress_text" (opt_text text) updates
    else updates in
  update_job job_id updates.

Definition claim_job (now : string) (job_id : Z) : M bool :=
  rowcount ← update_jobs
      [("status", VText JobStatus.RUNNING); ("started_at", VText now)]
      (fun id j =>
         (id =? job_id)
         && sql_holds (sql_eq (Job.status j) (VText JobStatus.QUEUED)));
  mret (0 <? rowcount).

Definition start_job (job_id : Z) (pid : Z) (log_file : string) : M unit :=
  match STAGE_PROGRESS JobStage.INIT with
  | None => raise KeyError
  | Some percent =>
      update_job job_id
        [("pid", VInt pid);
         ("log_file", VText log_file);
         ("stage", VText JobStage.INIT);
         ("progress_percent", VInt percent)]
  end.

Definition cancel_job_episodes (now : string) (job_id : Z) : M unit :=
  _ ← update_episodes
      [("status", VText EpisodeStatus.FAILED);
       ("error_message", VText "Job was cancelled");
       ("finished_at", VText now)]
      (fun _ e =>
         (Episode.job_id e =? job_id)
         && sql_holds (sql_not_in (Episode.status e)
                         [VText EpisodeStatus.COMPLETE;
                          VText EpisodeStatus.FAILED]));
  mret tt.

(** [now] is the clock read by [finish_job] itself, [now'] the one read
    by [cancel_job_episodes] after it. *)
Definition finish_job (now now' : string) (job_id : Z) (success : bool)
    (error_message : option string) : M unit :=
  _ ← update_job job_id
      [("status",
        VText (if success then JobStatus.SUCCESS else JobStatus.FAILED));
       ("finished_at", VText now);
       ("error_message", opt_text error_message);
       ("progress_percent", if success then VInt 100 else VNull);
       ("stage", if success then VText JobStage.DONE else VNull)];
  if negb success then cancel_job_episodes now' job_id else mret tt.

Definition cancel_job (now now' : string) (job_id : Z) : M unit :=
  _ ← update_job job_id
      [("status", VText JobStatus.CANCELED); ("finished_at", VText now)];
  cancel_job_episodes now' job_id.

Definition delete_all_jobs_except_running : M (Z * Z) :=
  skipped_count ← (fun s =>
      (Return (sql_count
                 (fun _ j =>
                    sql_holds (sql_eq (Job.status j) (VText JobStatus.RUNNING)))
                 (jobs s)), s));
  deleted_count ← delete_jobs connect
      (fun _ j => sql_holds (sql_ne (Job.status j) (VText JobStatus.RUNNING)));
  mret (deleted_count, skipped_count).

(** ** Episode operations *)

Definition create_episode (job_id episode_number : Z) (title : string)
    : M Z :=
  fun s =>
    if foreign_keys connect && negb (bool_decide (is_Some (jobs s !! job_id)))
    then (Raise IntegrityError, s)
    else
      let id := next_rowid (episodes_seq s) (episodes s) in
      let row :=
        {| Episode.job_id := job_id;
           Episode.episode_number := episode_number;
           Episode.title := title;
           Episode.status := VText EpisodeStatus.PENDING;
           Episode.progress_percent := VInt 0;
           Episode.stage_data := VNull;
           Episode.error_message := VNull;
           Episode.started_at := VNull;
           Episode.finished_at := VNull;
           Episode.log_file := VNull |} in
      (Return id,
       mkStore (jobs s) (jobs_seq s) (<[id := row]> (episodes s)) id).


Definition is_active_status (status : string) : bool :=
  bool_decide (status ∈ [EpisodeStatus.GET_STREAM;
                         EpisodeStatus.DOWNLOAD_VIDEO;
                         EpisodeStatus.MERGE_VIDEO;
                         EpisodeStatus.DOWNLOAD_SUBTITLES]).

(** The dictionary [updates] that [update_episode] builds from its
    arguments. *)
Definition episode_updates (now : string)
    (status : option string) (progress_percent : option Z)
    (error_message : option string)
    (stage_data : option (list (string * json)))
    (log_file : option string) : list (string * value) :=
  let updates : list (string * value) := [] in
  let updates :=
    match status with
    | Some st =>
        let updates := Dict.set "status" (VText st) updates in
        if decide (st = EpisodeStatus.COMPLETE) then
          Dict.set "progress_percent" (VInt 100)
            (Dict.set "finished_at" (VText now) updates)
        else if is_active_status st then
          if negb (truthy (Dict.get "started_at" updates))
          then Dict.set "started_at" (VText now) updates
          else updates
        else if decide (st = EpisodeStatus.FAILED) then
          Dict.set "finished_at" (VText now) updates
        else updates
    | None => updates
    end in
  let updates :=
    match progress_percent with
    | Some p => Dict.set "progress_percent" (VInt p) updates
    | None => updates
    end in
  let updates :=
    match error_message with
    | Some m => Dict.set "error_message" (VText m) updates
    | None => updates
    end in
  let updates :=
    match stage_data with
    | Some d => Dict.set "stage_data" (VText (Json.dumps (JDict d))) updates
    | None => updates
    end in
  match log_file with
  | Some f => Dict.set "log_file" (VText f) updates
  | None => updates
  end.

Definition update_episode (now : string) (episode_id : Z)
    (status : option string) (progress_percent : option Z)
    (error_message : option string)
    (stage_data : option (list (string * json)))
    (log_file : option string) : M unit :=
  let updates :=
    episode_updates now status progress_percent error_message stage_data
      log_file in
  match updates with
  | [] => mret tt
  | _ :: _ =>
      _ ← update_episodes updates (fun id _ => id =? episode_id);
      mret tt
  end.

(** ** Callers *)

(** The WHERE clause of [claim_job] on the status. *)
Definition is_queued (j : Job.t) : bool :=
  sql_holds (sql_eq (Job.status j) (VText JobStatus.QUEUED)).

(** The row [claim_job] writes. *)
Definition claimed (now : string) (j : Job.t) : Job.t :=
  Job.set "started_at" (VText now)
    (Job.set "status" (VText JobStatus.RUNNING) j).


(** The store after [UPDATE jobs SET sets WHERE id = job_id]. *)
Definition job_updated (job_id : Z) (sets : list (string * value))
    (s : store) : store :=
  match jobs s !! job_id with
  | Some j => with_jobs (<[job_id := assign Job.set sets j]> (jobs s)) s
  | None => s
  end.

(** The WHERE clause of [cancel_job_episodes] on the status. *)
Definition is_unfinished (e : Episode.t) : bool :=
  sql_holds (sql_not_in (Episode.status e)
               [VText EpisodeStatus.COMPLETE; VText EpisodeStatus.FAILED]).

(** The row [cancel_job_episodes] writes. *)
Definition cancelled (now : string) (e : Episode.t) : Episode.t :=
  assign Episode.set
    [("status", VText EpisodeStatus.FAILED);
     ("error_message", VText "Job was cancelled");
     ("finished_at", VText now)] e.

(** What [cancel_job_episodes] does to one row. *)
Definition cascade (now : string) (job_id : Z) (e : Episode.t) : Episode.t :=
  if (Episode.job_id e =? job_id) && is_unfinished e
  then cancelled now e else e.

(** An episode is finished when its status is COMPLETE or FAILED. *)
Definition finished (e : Episode.t) : Prop :=
  Episode.status e = VText EpisodeStatus.COMPLETE
  \/ Episode.status e = VText EpisodeStatus.FAILED.

(** The NOT NULL constraint on the status of an episode, as a property of
    the table. *)
Definition episodes_not_null (s : store) : Prop :=
  map_Forall (fun _ e => Episode.status e <> VNull) (episodes s).

(** The store operations on jobs, as a caller issues them. *)
Inductive op : Type :=
  | OpCreate (now url : string) (profile extra_args : option string)
  | OpClaim (now : string) (job_id : Z)
  | OpStart (job_id pid : Z) (log_file : string)
  | OpUpdateProgress (job_id percent : Z) (stage text : option string)
  | OpUpdate (job_id : Z) (kwargs : list (string * value))
  | OpFinish (now now' : string) (job_id : Z) (success : bool)
      (error_message : option string)
  | OpCancel (now now' : string) (job_id : Z).

(** The store an operation leaves, whether it returns or raises. *)
Definition run_op (o : op) (s : store) : store :=
  match o with
  | OpCreate now url profile extra_args =>
      (create_job now url profile extra_args s).2
  | OpClaim now job_id => (claim_job now job_id s).2
  | OpStart job_id pid log_file => (start_job job_id pid log_file s).2
  | OpUpdateProgress job_id percent stage text =>
      (update_progress job_id percent stage text s).2
  | OpUpdate job_id kwargs => (update_job job_id kwargs s).2
  | OpFinish now now' job_id success error_message =>
      (finish_job now now' job_id success error_message s).2
  | OpCancel now now' job_id => (cancel_job now now' job_id s).2
  end.




Definition terminal (v : value) : Prop :=
  v = VText JobStatus.SUCCESS \/ v = VText JobStatus.FAILED
  \/ v = VText JobStatus.CANCELED.

(** The keyword arguments [finish_job] and [cancel_job] pass to
    [update_job]. *)
Definition finish_kwargs (now : string) (success : bool)
    (error_message : option string) : list (string * value) :=
  [("status",
    VText (if success then JobStatus.SUCCESS else JobStatus.FAILED));
   ("finished_at", VText now);
   ("error_message", opt_text error_message);
   ("progress_percent", if success then VInt 100 else VNull);
   ("stage", if success then VText JobStage.DONE else VNull)].

Definition cancel_kwargs (now : string) : list (string * value) :=
  [("status", VText JobStatus.CANCELED); ("finished_at", VText now)].

(** ** JSON values that are dictionaries of Python *)





(** ** Reading one column of a row *)


(** ** Queries that return several rows *)

(** The order of ORDER BY on values: NULL first, then the integers, then
    the texts, byte by byte. *)
Definition sql_le (a b : value) : bool :=
  match a, b with
  | VNull, _ => true
  | _, VNull => false
  | VInt x, VInt y => x <=? y
  | VInt _, VText _ => true
  | VText _, VInt _ => false
  | VText t, VText u => String.leb t u
  end.

(** [SELECT * FROM t WHERE cond]: the rows, each with its key. *)
Definition sql_select {R} (cond : Z -> R -> bool) (t : gmap Z R)
    : list (Z * R) :=
  map_to_list (filter (fun kr : Z * R => cond kr.1 kr.2 = true) t).

(** [ORDER BY]: [le] compares the sort keys of two rows.  SQL leaves the
    order among rows with equal keys open; here it is the one the merge
    sort gives. *)
Definition ordered {R} (le : R -> R -> bool) : relation (Z * R) :=
  fun a b => le a.2 b.2 = true.

#[global] Instance ordered_dec {R} (le : R -> R -> bool) :
  RelDecision (ordered le).
Proof. intros a b. unfold ordered. apply _. Defined.

Definition sql_order_by {R} (le : R -> R -> bool) (rows : list (Z * R))
    : list (Z * R) :=
  merge_sort (ordered le) rows.

(** [LIMIT limit OFFSET offset]: a negative limit is no limit, a negative
    offset is no offset. *)
Definition sql_limit {A} (limit offset : Z) (rows : list A) : list A :=
  let rows := drop (Z.to_nat offset) rows in
  if limit <? 0 then rows else take (Z.to_nat limit) rows.

Definition get_jobs (limit offset : Z) : M (list (Z * Job.t)) :=
  fun s =>
    (Return
       (sql_limit limit offset
          (sql_order_by
             (fun a b => sql_le (Job.created_at b) (Job.created_at a))
             (sql_select (fun _ _ => true) (jobs s)))),
     s).

Definition get_active_jobs : M (list (Z * Job.t)) :=
  fun s =>
    (Return
       (sql_order_by
          (fun a b => sql_le (Job.created_at a) (Job.created_at b))
          (sql_select
             (fun _ j =>
                sql_holds
                  (negb <$> sql_not_in (Job.status j)
                              [VText JobStatus.QUEUED;
                               VText JobStatus.RUNNING]))
             (jobs s))),
     s).

Definition get_job_episodes (job_id : Z) : M (list (Z * Episode.t)) :=
  fun s =>
    (Return
       (sql_order_by
          (fun a b => Episode.episode_number a <=? Episode.episode_number b)
          (sql_select (fun _ e => Episode.job_id e =? job_id) (episodes s))),
     s).

Definition key_le {R} : relation (Z * R) := fun a b => a.1 <= b.1.

#[global] Instance key_le_dec {R} : RelDecision (@key_le R).
Proof. intros a b. unfold key_le. apply _. Defined.

(** [fetchone] takes the first row of a scan of the table, which goes by
    ascending key. *)
Definition find_episode_by_number (job_id episode_number : Z)
    : M (option (Z * Episode.t)) :=
  fun s =>
    (Return
       (head
          (merge_sort key_le
             (sql_select
                (fun _ e =>
                   (Episode.job_id e =? job_id)
                   && (Episode.episode_number e =? episode_number))
                (episodes s)))),
     s).

(** ** Every method that writes *)

Inductive action : Type :=
  | AJob (o : op)
  | ACreateEpisode (job_id episode_number : Z) (title : string)
  | AUpdateEpisode (now : string) (episode_id : Z)
      (status : option string) (progress_percent : option Z)
      (error_message : option string)
      (stage_data : option (list (string * json)))
      (log_file : option string)
  | ACancelJobEpisodes (now : string) (job_id : Z)
  | ADeleteAllJobsExceptRunning.

(** The store a call leaves, whether it returns or raises. *)
Definition run_action (a : action) (s : store) : store :=
  match a with
  | AJob o => run_op o s
  | ACreateEpisode job_id episode_number title =>
      (create_episode job_id episode_number title s).2
  | AUpdateEpisode now episode_id status progress_percent error_message
      stage_data log_file =>
      (update_episode now episode_id status progress_percent error_message
         stage_data log_file s).2
  | ACancelJobEpisodes now job_id => (cancel_job_episodes now job_id s).2
  | ADeleteAllJobsExceptRunning => (delete_all_jobs_except_running s).2
  end.

Definition run_actions (l : list action) (s : store) : store :=
  foldl (fun s' a => run_action a s') s l.

(** The NOT NULL constraints on the columns of a job. *)
Definition job_row_not_null (j : Job.t) : Prop :=
  Job.url j <> VNull /\ Job.status j <> VNull /\ Job.created_at j <> VNull.

Definition jobs_not_null (s : store) : Prop :=
  map_Forall (fun _ j => job_row_not_null j) (jobs s).


(** The WHERE clause of [get_active_jobs]. *)
Definition is_active (j : Job.t) : bool :=
  sql_holds (negb <$> sql_not_in (Job.status j)
                        [VText JobStatus.QUEUED; VText JobStatus.RUNNING]).

(** The sort keys of the queries. *)
Definition created_asc (a b : Job.t) : bool :=
  sql_le (Job.created_at a) (Job.created_at b).


Definition number_asc (a b : Episode.t) : bool :=
  Episode.episode_number a <=? Episode.episode_number b.

(** Two rows of the same episode: the job, the number and the title are
    the same. *)
Definition same_episode (e e' : Episode.t) : Prop :=
  Episode.job_id e' = Episode.job_id e
  /\ Episode.episode_number e' = Episode.episode_number e
  /\ Episode.title e' = Episode.title e.

(** The calls that add or remove jobs. *)
Definition creates_job (a : action) : bool :=
  match a with
  | AJob (OpCreate _ _ _ _) => true
  | _ => false
  end.

Definition deletes_jobs (a : action) : bool :=
  match a with
  | ADeleteAllJobsExceptRunning => true
  | _ => false
  end.

(** The WHERE clauses of [delete_all_jobs_except_running]. *)
Definition is_running (j : Job.t) : bool :=
  sql_holds (sql_eq (Job.status j) (VText JobStatus.RUNNING)).

Definition is_not_running (j : Job.t) : bool :=
  sql_holds (sql_ne (Job.status j) (VText JobStatus.RUNNING)).

(** * Properties *)

(** ** Statements addressed by key *)

Section StatementFacts.
Context {R : Type}.
Variable columns : list string.
Variable not_null_columns : list string.
Variable set : string -> value -> R -> R.

Implicit Types (t : gmap Z R) (c : R -> bool) (f : R -> R).

Lemma filter_key_hit t k c r :
  t !! k = Some r -> c r = true ->
  filter (fun kr : Z * R => (kr.1 =? k) && c kr.2 = true) t = {[k := r]}.
Proof.
  intros Hk Hc. apply map_eq. intros i.
  destruct (decide (i = k)) as [->|Hne].
  - rewrite lookup_singleton_eq. apply map_lookup_filter_Some. split; [done|].
    simpl. by rewrite Z.eqb_refl, Hc.
  - rewrite lookup_singleton_ne by done.
    apply map_lookup_filter_None. right. intros x _. simpl.
    apply Z.eqb_neq in Hne. by rewrite Hne.
Qed.

Lemma filter_key_miss t k c :
  (forall r, t !! k = Some r -> c r = false) ->
  filter (fun kr : Z * R => (kr.1 =? k) && c kr.2 = true) t = ∅.
Proof.
  intros Hmiss. apply map_empty. intros i.
  apply map_lookup_filter_None. right. intros x Hi. simpl.
  destruct (Z.eqb_spec i k) as [->|]; [|done].
  by rewrite (Hmiss x Hi).
Qed.

Lemma imap_key_hit t k c f r :
  t !! k = Some r -> c r = true ->
  map_imap (fun id x => Some (if (id =? k) && c x then f x else x)) t
  = <[k := f r]> t.
Proof.
  intros Hk Hc. apply map_eq. intros i. rewrite map_lookup_imap.
  destruct (decide (i = k)) as [->|Hne].
  - rewrite lookup_insert_eq, Hk. simpl. by rewrite Z.eqb_refl, Hc.
  - rewrite lookup_insert_ne by done.
    apply Z.eqb_neq in Hne. destruct (t !! i); simpl; by rewrite ?Hne.
Qed.

Lemma imap_key_miss t k c f :
  (forall r, t !! k = Some r -> c r = false) ->
  map_imap (fun id x => Some (if (id =? k) && c x then f x else x)) t = t.
Proof.
  intros Hmiss. apply map_eq. intros i. rewrite map_lookup_imap.
  destruct (t !! i) as [x|] eqn:Hi; [|done]. simpl.
  destruct (Z.eqb_spec i k) as [->|]; [|done].
  by rewrite (Hmiss x Hi).
Qed.

(** An UPDATE whose WHERE clause fixes the key reads and writes one
    row. *)
Lemma sql_update_key sets k c t :
  forallb (fun col => bool_decide (col ∈ columns)) (sets.*1) = true ->
  sql_update columns not_null_columns set sets
    (fun id r => (id =? k) && c r) t
  = match t !! k with
    | Some r =>
        if c r then
          if assigns_null not_null_columns sets then inl IntegrityError
          else inr (<[k := assign set sets r]> t, 1)
        else inr (t, 0)
    | None => inr (t, 0)
    end.
Proof.
  intros Hcols. unfold sql_update. rewrite Hcols. simpl.
  destruct (t !! k) as [r|] eqn:Hk; [destruct (c r) eqn:Hc|].
  - rewrite (filter_key_hit t k c r Hk Hc).
    rewrite bool_decide_eq_false_2 by apply insert_non_empty. simpl.
    destruct (assigns_null _ _); [done|].
    by rewrite (imap_key_hit t k c _ r Hk Hc), map_size_singleton.
  - assert (Hmiss : forall r', t !! k = Some r' -> c r' = false) by congruence.
    rewrite (filter_key_miss t k c Hmiss).
    rewrite bool_decide_eq_true_2 by done. simpl.
    by rewrite (imap_key_miss t k c _ Hmiss), map_size_empty.
  - assert (Hmiss : forall r', t !! k = Some r' -> c r' = false) by congruence.
    rewrite (filter_key_miss t k c Hmiss).
    rewrite bool_decide_eq_true_2 by done. simpl.
    by rewrite (imap_key_miss t k c _ Hmiss), map_size_empty.
Qed.
End StatementFacts.

Lemma sql_update_ext {R} columns nn (set : string -> value -> R -> R)
    sets (cond cond' : Z -> R -> bool) (t : gmap Z R) :
  (forall k r, cond k r = cond' k r) ->
  sql_update columns nn set sets cond t
  = sql_update columns nn set sets cond' t.
Proof.
  intros Hext. unfold sql_update.
  assert (Hf : filter (fun kr : Z * R => cond kr.1 kr.2 = true) t
               = filter (fun kr : Z * R => cond' kr.1 kr.2 = true) t).
  { apply map_filter_ext. intros i x _. simpl. by rewrite Hext. }
  assert (Hm : map_imap (fun k r => Some (if cond k r then assign set sets r else r)) t
               = map_imap (fun k r => Some (if cond' k r then assign set sets r else r)) t).
  { apply map_imap_ext. intros i. destruct (t !! i); simpl; by rewrite ?Hext. }
  by rewrite Hf, Hm.
Qed.

(** ** Updates of one job *)

Lemma update_jobs_key sets k c s :
  forallb (fun col => bool_decide (col ∈ Job.columns)) (sets.*1) = true ->
  update_jobs sets (fun id j => (id =? k) && c j) s
  = match jobs s !! k with
    | Some j =>
        if c j then
          if assigns_null Job.not_null_columns sets
          then (Raise IntegrityError, s)
          else (Return 1, with_jobs (<[k := assign Job.set sets j]> (jobs s)) s)
        else (Return 0, s)
    | None => (Return 0, s)
    end.
Proof.
  intros Hcols. unfold update_jobs.
  rewrite (sql_update_key _ _ _ _ _ _ _ Hcols).
  destruct s as [js jq es eq]; simpl.
  destruct (js !! k) as [j|]; [|done].
  destruct (c j); [|done]. by destruct (assigns_null _ _).
Qed.

Lemma update_jobs_id sets k s :
  forallb (fun col => bool_decide (col ∈ Job.columns)) (sets.*1) = true ->
  update_jobs sets (fun id _ => id =? k) s
  = match jobs s !! k with
    | Some j =>
        if assigns_null Job.not_null_columns sets
        then (Raise IntegrityError, s)
        else (Return 1, with_jobs (<[k := assign Job.set sets j]> (jobs s)) s)
    | None => (Return 0, s)
    end.
Proof.
  intros Hcols.
  transitivity (update_jobs sets (fun id j => (id =? k) && true) s).
  - unfold update_jobs. f_equal.
    erewrite sql_update_ext; [done|]. intros i r. simpl. by rewrite andb_true_r.
  - rewrite update_jobs_key by done. by destruct (jobs s !! k).
Qed.

(** ** claim_job *)

Lemma is_queued_spec j :
  is_queued j = true <-> Job.status j = VText JobStatus.QUEUED.
Proof.
  unfold is_queued, sql_eq, sql_holds.
  destruct (Job.status j) as [|z|t]; try (split; [done | discriminate]);
    case_bool_decide; split; done.
Qed.



Lemma claim_job_eq now job_id s :
  claim_job now job_id s
  = match jobs s !! job_id with
    | Some j =>
        if is_queued j
        then (Return true, with_jobs (<[job_id := claimed now j]> (jobs s)) s)
        else (Return false, s)
    | None => (Return false, s)
    end.
Proof.
  unfold claim_job, mbind, M_bind, bind.
  rewrite (update_jobs_key _ job_id is_queued) by done.
  destruct (jobs s !! job_id) as [j|]; [|done].
  by destruct (is_queued j).
Qed.




(** ** update_job *)

Lemma valid_columns_spec col : col ∈ VALID_COLUMNS <-> col ∈ Job.columns.
Proof. unfold VALID_COLUMNS. by rewrite elem_of_list_to_set. Qed.

Lemma no_invalid_columns (kwargs : list (string * value)) :
  list_to_set (kwargs.*1) ∖ VALID_COLUMNS = (∅ : gset string)
  <-> forall col, col ∈ kwargs.*1 -> col ∈ VALID_COLUMNS.
Proof.
  split.
  - intros Hempty col Hcol.
    destruct (decide (col ∈ VALID_COLUMNS)) as [|Hnot]; [done|].
    assert (Hin : col ∈ list_to_set (C := gset string) (kwargs.*1) ∖ VALID_COLUMNS).
    { apply elem_of_difference. split; [by apply elem_of_list_to_set | done]. }
    rewrite Hempty in Hin. by apply not_elem_of_empty in Hin.
  - intros Hall. apply set_eq. intros col. split.
    + intros [Hin Hnot]%elem_of_difference.
      apply elem_of_list_to_set in Hin. destruct Hnot. by apply Hall.
    + intros Hin. by apply not_elem_of_empty in Hin.
Qed.

Lemma valid_columns_known (kwargs : list (string * value)) :
  (forall col, col ∈ kwargs.*1 -> col ∈ VALID_COLUMNS) ->
  forallb (fun col => bool_decide (col ∈ Job.columns)) (kwargs.*1) = true.
Proof.
  intros Hall. apply forallb_forall. intros col Hcol.
  apply bool_decide_eq_true_2, valid_columns_spec, Hall.
  by apply list_elem_of_In.
Qed.

(** What [update_job] does, case by case. *)
Lemma update_job_eq job_id kwargs s :
  update_job job_id kwargs s
  = if bool_decide (kwargs = []) then (Return tt, s)
    else if decide (list_to_set (kwargs.*1) ∖ VALID_COLUMNS = (∅ : gset string))
    then
      if assigns_null Job.not_null_columns kwargs
         && bool_decide (is_Some (jobs s !! job_id))
      then (Raise IntegrityError, s)
      else (Return tt, job_updated job_id kwargs s)
    else (Raise (ValueError (list_to_set (kwargs.*1) ∖ VALID_COLUMNS)), s).
Proof.
  unfold update_job. destruct kwargs as [|kv kwargs]; [done|].
  rewrite bool_decide_eq_false_2 by discriminate.
  destruct (decide _) as [Hvalid|]; [|done].
  unfold mbind, M_bind, bind.
  rewrite update_jobs_id
    by (apply valid_columns_known; by apply no_invalid_columns).
  unfold job_updated. destruct (jobs s !! job_id) as [j|] eqn:Hj.
  - rewrite bool_decide_eq_true_2 by eauto. rewrite andb_true_r.
    by destruct (assigns_null _ _).
  - rewrite bool_decide_eq_false_2 by (intros [? ?]; discriminate).
    by rewrite andb_false_r.
Qed.

(** C9.  The generic update of a job rejects a field map that holds a
    name outside the allow-list: it raises the validation error and the
    store, hence the stored job, is as before; no statement has run.  With
    an empty field map it returns without error and without a write. *)
Theorem update_job_validates (job_id : Z) (kwargs : list (string * value))
    (s : store) :
  ((exists col, col ∈ kwargs.*1 /\ col ∉ VALID_COLUMNS) ->
     update_job job_id kwargs s
     = (Raise (ValueError (list_to_set (kwargs.*1) ∖ VALID_COLUMNS)), s)
     /\ (update_job job_id kwargs s).2 = s)
  /\ update_job job_id [] s = (Return tt, s).
Proof.
  split; [|done].
  intros (col & Hcol & Hbad). rewrite update_job_eq.
  destruct kwargs as [|kv kwargs]; [by apply elem_of_nil in Hcol|].
  rewrite bool_decide_eq_false_2 by discriminate.
  destruct (decide _) as [Hvalid|]; [|done].
  destruct Hbad. by apply (proj1 (no_invalid_columns _) Hvalid).
Qed.

Lemma update_job_validates_witness :
  let s := (create_job "t0" "http://x" None None empty_store).2 in
  (update_job 1 [("progress_percent", VInt 7); ("bogus_field", VInt 1)] s).2 = s
  /\ update_job 1 [] s = (Return tt, s).
Proof.
  intros s.
  destruct (update_job_validates 1
              [("progress_percent", VInt 7); ("bogus_field", VInt 1)] s)
    as [Hbad Hempty].
  split; [|exact Hempty].
  apply Hbad. exists "bogus_field". split.
  - apply (bool_decide_unpack _). vm_compute. exact I.
  - apply (bool_decide_unpack _). vm_compute. exact I.
Defined.

(** ** The cascade *)

Lemma imap_fmap {R} (f : R -> R) (t : gmap Z R) :
  map_imap (fun _ r => Some (f r)) t = f <$> t.
Proof.
  apply map_eq. intros i. rewrite map_lookup_imap, lookup_fmap.
  by destruct (t !! i).
Qed.

Lemma cancel_job_episodes_eq now job_id s :
  cancel_job_episodes now job_id s
  = (Return tt, with_episodes (cascade now job_id <$> episodes s) s).
Proof.
  unfold cancel_job_episodes, mbind, M_bind, bind, update_episodes, sql_update.
  change (forallb _ _) with true. change (assigns_null _ _) with false.
  rewrite andb_false_r. simpl negb. cbv iota.
  by rewrite <- imap_fmap.
Qed.

Lemma is_unfinished_spec e :
  Episode.status e <> VNull ->
  is_unfinished e = false <-> finished e.
Proof.
  intros Hnn. unfold is_unfinished, finished, sql_not_in, sql_ne, sql_eq.
  destruct (Episode.status e) as [|z|t]; [done| |].
  - simpl. split; [discriminate | intros [?|?]; discriminate].
  - simpl. repeat case_bool_decide; simpl; split; try done; try tauto;
      intros [?|?]; congruence.
Qed.

Lemma is_unfinished_finished e : finished e -> is_unfinished e = false.
Proof.
  intros Hf. apply is_unfinished_spec; [|done].
  destruct Hf as [H|H]; rewrite H; discriminate.
Qed.

Lemma cancelled_fields now e :
  Episode.status (cancelled now e) = VText EpisodeStatus.FAILED
  /\ Episode.error_message (cancelled now e) = VText "Job was cancelled"
  /\ Episode.finished_at (cancelled now e) = VText now
  /\ Episode.job_id (cancelled now e) = Episode.job_id e
  /\ Episode.episode_number (cancelled now e) = Episode.episode_number e
  /\ Episode.title (cancelled now e) = Episode.title e
  /\ Episode.progress_percent (cancelled now e) = Episode.progress_percent e
  /\ Episode.stage_data (cancelled now e) = Episode.stage_data e
  /\ Episode.started_at (cancelled now e) = Episode.started_at e
  /\ Episode.log_file (cancelled now e) = Episode.log_file e.
Proof. by destruct e. Qed.

Lemma cascade_finished now job_id e : finished e -> cascade now job_id e = e.
Proof.
  intros Hf. unfold cascade.
  by rewrite (is_unfinished_finished e Hf), andb_false_r.
Qed.

Lemma cascade_other now job_id e :
  Episode.job_id e <> job_id -> cascade now job_id e = e.
Proof.
  intros Hne. unfold cascade. apply Z.eqb_neq in Hne. by rewrite Hne.
Qed.

Lemma cascade_job_id now job_id e :
  Episode.job_id (cascade now job_id e) = Episode.job_id e.
Proof.
  unfold cascade. destruct (_ && _); [|done]. apply cancelled_fields.
Qed.

Lemma cascade_unfinished now job_id e :
  Episode.job_id e = job_id -> Episode.status e <> VNull -> ~ finished e ->
  cascade now job_id e = cancelled now e.
Proof.
  intros Hid Hnn Hnf. unfold cascade.
  apply Z.eqb_eq in Hid. rewrite Hid.
  destruct (is_unfinished e) eqn:Hu; [done|].
  destruct Hnf. by apply is_unfinished_spec.
Qed.

Lemma cascade_idle now job_id (t : gmap Z Episode.t) :
  (forall k e, t !! k = Some e -> Episode.job_id e = job_id -> finished e) ->
  cascade now job_id <$> t = t.
Proof.
  intros Hall. apply map_eq. intros k. rewrite lookup_fmap.
  destruct (t !! k) as [e|] eqn:Hk; [|done]. simpl. f_equal.
  destruct (decide (Episode.job_id e = job_id)) as [Hid|Hne].
  - apply cascade_finished. by apply (Hall k).
  - by apply cascade_other.
Qed.

(** ** finish_job and cancel_job *)

Lemma job_updated_episodes job_id sets s :
  episodes (job_updated job_id sets s) = episodes s.
Proof. unfold job_updated. by destruct (jobs s !! job_id). Qed.


Lemma finish_job_eq now now' job_id success error_message s :
  finish_job now now' job_id success error_message s
  = let s1 := job_updated job_id (finish_kwargs now success error_message) s in
    if success then (Return tt, s1)
    else (Return tt, with_episodes (cascade now' job_id <$> episodes s1) s1).
Proof.
  unfold finish_job, mbind, M_bind, bind.
  change [("status", _); _; _; _; _]
    with (finish_kwargs now success error_message).
  rewrite update_job_eq.
  assert (Hok : assigns_null Job.not_null_columns
                  (finish_kwargs now success error_message) = false)
    by (by destruct success).
  rewrite Hok. simpl.
  destruct (decide _) as [_|Hbad].
  - destruct success; simpl; [done|]. by rewrite cancel_job_episodes_eq.
  - destruct Hbad. by destruct success.
Qed.

Lemma cancel_job_eq now now' job_id s :
  cancel_job now now' job_id s
  = let s1 := job_updated job_id (cancel_kwargs now) s in
    (Return tt, with_episodes (cascade now' job_id <$> episodes s1) s1).
Proof.
  unfold cancel_job, mbind, M_bind, bind.
  change [("status", _); _] with (cancel_kwargs now).
  rewrite update_job_eq. simpl.
  destruct (decide _) as [_|Hbad]; [|by destruct Hbad].
  by rewrite cancel_job_episodes_eq.
Qed.

Lemma finish_job_jobs now now' job_id success error_message s :
  jobs (finish_job now now' job_id success error_message s).2
  = jobs (job_updated job_id (finish_kwargs now success error_message) s).
Proof. rewrite finish_job_eq. by destruct success. Qed.

(** The episodes a failing finish or a cancel leaves. *)
Lemma terminated_episodes now now' job_id error_message s s' :
  s' = (finish_job now now' job_id false error_message s).2
  \/ s' = (cancel_job now now' job_id s).2 ->
  episodes s' = cascade now' job_id <$> episodes s.
Proof.
  intros [-> | ->].
  - rewrite finish_job_eq. simpl. by rewrite job_updated_episodes.
  - rewrite cancel_job_eq. simpl. by rewrite job_updated_episodes.
Qed.

(** C2.  After a failing finish or a cancel of job [job_id], every
    episode of the job is COMPLETE or FAILED: an episode that was neither
    is now FAILED with the message "Job was cancelled" and finished_at set
    to the clock reading of the cascade, an episode that was COMPLETE or
    FAILED is as it was.  Running the cascade on a job with no episode left
    to fail changes nothing. *)
Theorem cascade_leaves_no_active_episode (now now' : string) (job_id : Z)
    (error_message : option string) (s s' : store) :
  episodes_not_null s ->
  s' = (finish_job now now' job_id false error_message s).2
  \/ s' = (cancel_job now now' job_id s).2 ->
  (forall k e', episodes s' !! k = Some e' ->
     Episode.job_id e' = job_id -> finished e')
  /\ (forall k e, episodes s !! k = Some e -> Episode.job_id e = job_id ->
        (finished e -> episodes s' !! k = Some e)
        /\ (~ finished e ->
              episodes s' !! k = Some (cancelled now' e)
              /\ Episode.status (cancelled now' e)
                 = VText EpisodeStatus.FAILED
              /\ Episode.error_message (cancelled now' e)
                 = VText "Job was cancelled"
              /\ Episode.finished_at (cancelled now' e) = VText now'))
  /\ (forall again, cancel_job_episodes again job_id s' = (Return tt, s')).
Proof.
  intros Hnn Hs'.
  pose proof (terminated_episodes _ _ _ _ _ _ Hs') as Heps.
  assert (Hfin : forall k e', episodes s' !! k = Some e' ->
                   Episode.job_id e' = job_id -> finished e').
  { intros k e'. rewrite Heps, lookup_fmap.
    destruct (episodes s !! k) as [e|] eqn:Hk; [|discriminate].
    simpl. intros [= <-]. rewrite cascade_job_id. intros Hid.
    destruct (is_unfinished e) eqn:Hu.
    - unfold cascade. apply Z.eqb_eq in Hid. rewrite Hid, Hu. simpl.
      right. apply cancelled_fields.
    - rewrite cascade_finished; by apply is_unfinished_spec; eauto. }
  split; [done|]. split.
  - intros k e Hk Hid. rewrite Heps, lookup_fmap, Hk. simpl. split.
    + intros Hf. by rewrite cascade_finished.
    + intros Hnf. rewrite cascade_unfinished by eauto.
      split; [done|]. pose proof (cancelled_fields now' e). tauto.
  - intros again. rewrite cancel_job_episodes_eq.
    rewrite cascade_idle by done. by destruct s'.
Qed.

Lemma cascade_leaves_no_active_episode_witness :
  let s0 := (create_job "t0" "http://x" None None empty_store).2 in
  let s1 := (create_episode 1 1 "one" s0).2 in
  let s2 := (create_episode 1 2 "two" s1).2 in
  let s3 := (update_episode "t1" 1 (Some EpisodeStatus.COMPLETE)
               None None None None s2).2 in
  let s' := (cancel_job "t2" "t3" 1 s3).2 in
  episodes s' !! 1 = episodes s3 !! 1
  /\ Episode.status <$> episodes s' !! 2 = Some (VText EpisodeStatus.FAILED)
  /\ Episode.error_message <$> episodes s' !! 2
     = Some (VText "Job was cancelled")
  /\ cancel_job_episodes "t4" 1 s' = (Return tt, s').
Proof.
  intros s0 s1 s2 s3 s'.
  assert (Hnn : episodes_not_null s3).
  { apply (bool_decide_unpack _). vm_compute. exact I. }
  destruct (cascade_leaves_no_active_episode "t2" "t3" 1 None s3 s' Hnn
              (or_intror eq_refl)) as (_ & Hrows & Hidem).
  assert (H1 : exists e, episodes s3 !! 1 = Some e
                         /\ Episode.job_id e = 1 /\ finished e).
  { eexists. split; [vm_compute; reflexivity|]. split; [reflexivity|].
    left. reflexivity. }
  assert (H2 : exists e, episodes s3 !! 2 = Some e
                         /\ Episode.job_id e = 1 /\ ~ finished e).
  { eexists. split; [vm_compute; reflexivity|]. split; [reflexivity|].
    intros [H|H]; discriminate H. }
  destruct H1 as (e1 & Hk1 & Hid1 & Hf1), H2 as (e2 & Hk2 & Hid2 & Hf2).
  destruct (Hrows 1 e1 Hk1 Hid1) as [Hkeep _].
  destruct (Hrows 2 e2 Hk2 Hid2) as [_ Hfail].
  destruct (Hfail Hf2) as (Hk2' & Hst & Hmsg & _).
  split; [by rewrite Hkeep|]. rewrite Hk2'. simpl. rewrite Hst, Hmsg.
  split; [done|]. split; [done|]. apply Hidem.
Defined.

(** ** update_episode *)

Lemma dict_set_Forall {V} (P : string * V -> Prop) k v (d : list (string * V)) :
  P (k, v) -> Forall P d -> Forall P (Dict.set k v d).
Proof.
  intros Hkv. induction 1 as [|[k' v'] d Hx Hd IH]; simpl.
  - by constructor.
  - destruct (decide (k' = k)); constructor; auto.
Qed.

Lemma episode_updates_ok now status progress_percent error_message
    stage_data log_file :
  Forall (fun kv : string * value => kv.1 ∈ Episode.columns /\ kv.2 <> VNull)
    (episode_updates now status progress_percent error_message stage_data
       log_file).
Proof.
  unfold episode_updates.
  repeat match goal with
         | |- context [match ?x with _ => _ end] => destruct x
         end;
    repeat (apply dict_set_Forall;
            [split; [simpl; repeat constructor | discriminate]|]);
    constructor.
Qed.

Lemma Forall_columns_known (columns : list string)
    (sets : list (string * value)) :
  Forall (fun kv : string * value => kv.1 ∈ columns /\ kv.2 <> VNull) sets ->
  forallb (fun col => bool_decide (col ∈ columns)) (sets.*1) = true.
Proof.
  induction 1 as [|[k v] d [Hk _] _ IH]; [done|].
  rewrite fmap_cons. cbn [forallb fst].
  by rewrite IH, bool_decide_eq_true_2.
Qed.

Lemma Forall_assigns_no_null (columns nn : list string)
    (sets : list (string * value)) :
  Forall (fun kv : string * value => kv.1 ∈ columns /\ kv.2 <> VNull) sets ->
  assigns_null nn sets = false.
Proof.
  induction 1 as [|[k v] d [_ Hv] _ IH]; [done|].
  unfold assigns_null in *. cbn [existsb snd] in *. rewrite IH.
  by rewrite (bool_decide_eq_false_2 _ Hv), andb_false_r.
Qed.

Lemma update_episodes_id sets k s :
  Forall (fun kv : string * value => kv.1 ∈ Episode.columns /\ kv.2 <> VNull)
    sets ->
  update_episodes sets (fun id _ => id =? k) s
  = match episodes s !! k with
    | Some e =>
        (Return 1,
         with_episodes (<[k := assign Episode.set sets e]> (episodes s)) s)
    | None => (Return 0, s)
    end.
Proof.
  intros Hok. unfold update_episodes.
  rewrite (sql_update_ext _ _ _ _ _ (fun id e => (id =? k) && true))
    by (intros; simpl; by rewrite andb_true_r).
  rewrite (sql_update_key _ _ _ _ _ (fun _ => true))
    by (by apply Forall_columns_known).
  rewrite (Forall_assigns_no_null _ _ _ Hok).
  destruct (episodes s !! k); [done|]. by destruct s.
Qed.

(** What [update_episode] does: nothing without an argument, else one
    UPDATE of the row, if there is one. *)
Lemma update_episode_eq now episode_id status progress_percent
    error_message stage_data log_file s :
  update_episode now episode_id status progress_percent error_message
    stage_data log_file s
  = match episode_updates now status progress_percent error_message
            stage_data log_file with
    | [] => (Return tt, s)
    | updates =>
        match episodes s !! episode_id with
        | Some e =>
            (Return tt,
             with_episodes
               (<[episode_id := assign Episode.set updates e]> (episodes s)) s)
        | None => (Return tt, s)
        end
    end.
Proof.
  unfold update_episode.
  pose proof (episode_updates_ok now status progress_percent error_message
                stage_data log_file) as Hok.
  destruct (episode_updates _ _ _ _ _ _) as [|kv updates]; [done|].
  unfold mbind, M_bind, bind. rewrite update_episodes_id by done.
  by destruct (episodes s !! episode_id).
Qed.

(** ** Operations addressed to a missing row *)


Lemma update_progress_eq job_id percent stage text :
  exists updates,
    update_progress job_id percent stage text = update_job job_id updates
    /\ (forall col, col ∈ updates.*1 -> col ∈ VALID_COLUMNS)
    /\ ("status" ∉ (updates.*1))
    /\ assigns_null Job.not_null_columns updates = false.
Proof.
  unfold update_progress, truthy_text.
  destruct stage as [stage|], text as [text|];
    repeat case_bool_decide; cbn [negb];
    eexists; (split; [reflexivity|]);
    (split; [|split; [|reflexivity]]);
    try (intros col Hcol; simpl in Hcol; apply valid_columns_spec;
         repeat (apply elem_of_cons in Hcol as [->|Hcol]; [repeat constructor|]);
         by apply elem_of_nil in Hcol);
    intros Hin; simpl in Hin;
    repeat (apply elem_of_cons in Hin as [Hin|Hin]; [discriminate|]);
    by apply elem_of_nil in Hin.
Qed.




(** ** Status side effects of update_episode *)

(** The row an existing episode has after [update_episode]. *)
Lemma update_episode_row now episode_id status progress_percent
    error_message stage_data log_file s e :
  episodes s !! episode_id = Some e ->
  let r := update_episode now episode_id status progress_percent
             error_message stage_data log_file s in
  r.1 = Return tt
  /\ episodes r.2 !! episode_id
     = Some (assign Episode.set
               (episode_updates now status progress_percent error_message
                  stage_data log_file) e).
Proof.
  intros He r. unfold r. rewrite update_episode_eq, He.
  destruct (episode_updates _ _ _ _ _ _) as [|kv updates]; simpl.
  - done.
  - by rewrite lookup_insert_eq.
Qed.

(** C6, as stated, fails: with status COMPLETE and progress_percent 50 in
    one call, the stored progress_percent is 50. *)
Lemma complete_with_progress_stores_argument :
  let s := (create_episode 1 1 "one" empty_store).2 in
  let r := update_episode "t1" 1 (Some EpisodeStatus.COMPLETE) (Some 50)
             None None None s in
  r.1 = Return tt
  /\ Episode.status <$> episodes r.2 !! 1
     = Some (VText EpisodeStatus.COMPLETE)
  /\ Episode.progress_percent <$> episodes r.2 !! 1 = Some (VInt 50)
  /\ Episode.progress_percent <$> episodes r.2 !! 1 <> Some (VInt 100).
Proof. vm_compute. repeat split; discriminate. Qed.

(** C6, amended.  An update of an existing episode with status COMPLETE
    sets status to COMPLETE and finished_at to [now], whatever the other
    arguments are; progress_percent becomes 100 when the call has no
    progress_percent argument, and the argument when it has one. *)
Theorem complete_sets_finished_at_and_progress (now : string)
    (episode_id : Z) (progress_percent : option Z)
    (error_message : option string)
    (stage_data : option (list (string * json))) (log_file : option string)
    (s : store) (e : Episode.t) :
  episodes s !! episode_id = Some e ->
  let r := update_episode now episode_id (Some EpisodeStatus.COMPLETE)
             progress_percent error_message stage_data log_file s in
  r.1 = Return tt
  /\ exists e', episodes r.2 !! episode_id = Some e'
       /\ Episode.status e' = VText EpisodeStatus.COMPLETE
       /\ Episode.finished_at e' = VText now
       /\ Episode.progress_percent e'
          = VInt (match progress_percent with Some p => p | None => 100 end).
Proof.
  intros He r.
  destruct (update_episode_row now episode_id (Some EpisodeStatus.COMPLETE)
              progress_percent error_message stage_data log_file s e He)
    as [Hret Hrow].
  split; [exact Hret|]. eexists. split; [exact Hrow|].
  destruct progress_percent, error_message, stage_data, log_file, e;
    repeat split; reflexivity.
Qed.

Lemma complete_sets_finished_at_and_progress_witness :
  let s := (create_episode 1 1 "one" empty_store).2 in
  let r := update_episode "t1" 1 (Some EpisodeStatus.COMPLETE) None
             (Some "note") None None s in
  r.1 = Return tt
  /\ Episode.finished_at <$> episodes r.2 !! 1 = Some (VText "t1")
  /\ Episode.progress_percent <$> episodes r.2 !! 1 = Some (VInt 100).
Proof.
  intros s r.
  assert (He : exists e, episodes s !! 1 = Some e).
  { eexists. vm_compute. reflexivity. }
  destruct He as [e He].
  destruct (complete_sets_finished_at_and_progress "t1" 1 None (Some "note")
              None None s e He) as (Hret & e' & He' & _ & Hfin & Hpp).
  fold r in Hret, He'. rewrite He'. simpl. by rewrite Hfin, Hpp.
Defined.

Lemma is_active_status_cases st :
  is_active_status st = true ->
  st = EpisodeStatus.GET_STREAM \/ st = EpisodeStatus.DOWNLOAD_VIDEO
  \/ st = EpisodeStatus.MERGE_VIDEO \/ st = EpisodeStatus.DOWNLOAD_SUBTITLES.
Proof.
  unfold is_active_status. intros H%bool_decide_eq_true.
  repeat (apply elem_of_cons in H as [H|H]; [tauto|]).
  by apply elem_of_nil in H.
Qed.

(** The guard of [update_episode] on started_at reads the dictionary it
    has just created, never the stored row: an update with an active
    status always writes started_at. *)
Lemma active_status_overwrites_started_at now episode_id st
    progress_percent error_message stage_data log_file s e :
  episodes s !! episode_id = Some e ->
  is_active_status st = true ->
  Episode.started_at <$>
    episodes (update_episode now episode_id (Some st) progress_percent
                error_message stage_data log_file s).2 !! episode_id
  = Some (VText now).
Proof.
  intros He Hact.
  destruct (update_episode_row now episode_id (Some st) progress_percent
              error_message stage_data log_file s e He) as [_ ->].
  simpl. f_equal.
  destruct (is_active_status_cases st Hact) as [->|[->|[->| ->]]];
    destruct progress_percent, error_message, stage_data, log_file, e;
    reflexivity.
Qed.

(** C5 at its failing input: an episode entered GET_STREAM at t1, so
    started_at is "t1"; the update to DOWNLOAD_VIDEO at t2 replaces it by
    "t2". *)
Lemma started_at_overwritten :
  let s0 := (create_episode 1 1 "one" empty_store).2 in
  let s1 := (update_episode "t1" 1 (Some EpisodeStatus.GET_STREAM)
               None None None None s0).2 in
  let s2 := (update_episode "t2" 1 (Some EpisodeStatus.DOWNLOAD_VIDEO)
               None None None None s1).2 in
  Episode.started_at <$> episodes s1 !! 1 = Some (VText "t1")
  /\ Episode.started_at <$> episodes s2 !! 1 = Some (VText "t2").
Proof. vm_compute. split; reflexivity. Qed.

(** ** finish_job on failure *)

(** A failing finish passes [None] for progress_percent and stage, and
    [update_job] writes every keyword argument it is given: both columns
    become NULL. *)
Lemma finish_job_failure_row now now' job_id error_message s j :
  jobs s !! job_id = Some j ->
  exists j',
    jobs (finish_job now now' job_id false error_message s).2 !! job_id
    = Some j'
    /\ Job.status j' = VText JobStatus.FAILED
    /\ Job.finished_at j' = VText now
    /\ Job.error_message j' = opt_text error_message
    /\ Job.progress_percent j' = VNull
    /\ Job.stage j' = VNull.
Proof.
  intros Hj. rewrite finish_job_eq. simpl. unfold job_updated. rewrite Hj.
  simpl. rewrite lookup_insert_eq. eexists. split; [reflexivity|].
  by destruct j.
Qed.

(** C4 at its failing input: a running job at stage "download" with
    progress 30 is finished with success=false; its progress_percent and
    stage are NULL afterwards. *)
Lemma finish_failure_erases_progress :
  let s0 := (create_job "t0" "http://x" None None empty_store).2 in
  let s1 := (claim_job "t1" 1 s0).2 in
  let s2 := (start_job 1 4242 "job.log" s1).2 in
  let s3 := (update_progress 1 30 (Some JobStage.DOWNLOAD) None s2).2 in
  let r := finish_job "t2" "t3" 1 false (Some "boom") s3 in
  (Job.progress_percent <$> jobs s3 !! 1 = Some (VInt 30)
   /\ Job.stage <$> jobs s3 !! 1 = Some (VText JobStage.DOWNLOAD))
  /\ r.1 = Return tt
  /\ Job.status <$> jobs r.2 !! 1 = Some (VText JobStatus.FAILED)
  /\ Job.error_message <$> jobs r.2 !! 1 = Some (VText "boom")
  /\ Job.progress_percent <$> jobs r.2 !! 1 = Some VNull
  /\ Job.stage <$> jobs r.2 !! 1 = Some VNull.
Proof. vm_compute. repeat split; reflexivity. Qed.

(** ** delete_all_jobs_except_running *)

(** C8 at its failing input: three jobs, the first running, the other two
    finished, each with one episode.  The purge returns (2, 1) and removes
    jobs 2 and 3, but the connection does not enforce the foreign key: the
    episodes of jobs 2 and 3 stay, with no job to belong to. *)
Lemma purge_leaves_orphan_episodes :
  let s0 := (create_job "t0" "http://a" None None empty_store).2 in
  let s1 := (create_job "t1" "http://b" None None s0).2 in
  let s2 := (create_job "t2" "http://c" None None s1).2 in
  let s3 := (create_episode 1 1 "a1" s2).2 in
  let s4 := (create_episode 2 1 "b1" s3).2 in
  let s5 := (create_episode 3 1 "c1" s4).2 in
  let s6 := (claim_job "t3" 1 s5).2 in
  let s7 := (claim_job "t4" 2 s6).2 in
  let s8 := (finish_job "t5" "t6" 2 true None s7).2 in
  let s9 := (cancel_job "t7" "t8" 3 s8).2 in
  let r := delete_all_jobs_except_running s9 in
  r.1 = Return (2, 1)
  /\ Job.status <$> jobs r.2 !! 1 = Some (VText JobStatus.RUNNING)
  /\ jobs r.2 !! 2 = None
  /\ jobs r.2 !! 3 = None
  /\ episodes r.2 = episodes s9
  /\ Episode.job_id <$> episodes r.2 !! 2 = Some 2
  /\ Episode.job_id <$> episodes r.2 !! 3 = Some 3.
Proof. vm_compute. repeat split; reflexivity. Qed.

Lemma purge_keeps_episodes s :
  episodes (delete_all_jobs_except_running s).2 = episodes s.
Proof. reflexivity. Qed.

(** ** Keys of new rows *)

Lemma max_rowid_ge {R} (t : gmap Z R) k r :
  t !! k = Some r -> k <= max_rowid t.
Proof.
  unfold max_rowid. revert k r.
  apply (map_fold_weak_ind
           (fun acc (m : gmap Z R) => forall k r, m !! k = Some r -> k <= acc)).
  - intros k r Hk. by rewrite lookup_empty in Hk.
  - intros i x m acc Hi IH k r Hk.
    destruct (decide (i = k)) as [->|Hne]; [lia|].
    rewrite lookup_insert_ne in Hk by done.
    specialize (IH k r Hk). lia.
Qed.

Lemma next_rowid_fresh {R} seq (t : gmap Z R) :
  t !! next_rowid seq t = None.
Proof.
  destruct (t !! next_rowid seq t) as [r|] eqn:Hk; [|done].
  apply max_rowid_ge in Hk. unfold next_rowid in Hk. lia.
Qed.

(** ** The status of a job across operations *)




Lemma job_updated_other k sets s id :
  k <> id -> jobs (job_updated k sets s) !! id = jobs s !! id.
Proof.
  intros Hne. unfold job_updated.
  destruct (jobs s !! k); [|done]. simpl. by rewrite lookup_insert_ne.
Qed.

Lemma update_job_store k kwargs s :
  (update_job k kwargs s).2 = s
  \/ (update_job k kwargs s).2 = job_updated k kwargs s.
Proof.
  rewrite update_job_eq. case_bool_decide; [by left|].
  destruct (decide _); [|by left].
  destruct (_ && _); [by left | by right].
Qed.







(** ** The round trip of [json.dumps] and [json.loads] *)

Section JsonInduction.
Variable P : json -> Prop.
Hypothesis HNull : P JNull.
Hypothesis HBool : forall b, P (JBool b).
Hypothesis HInt : forall z, P (JInt z).
Hypothesis HStr : forall s, P (JStr s).
Hypothesis HList : forall items, Forall P items -> P (JList items).
Hypothesis HDict : forall items,
  Forall (fun kv : string * json => P kv.2) items -> P (JDict items).

End JsonInduction.

(** *** Integers *)


















(** *** Strings *)





(** *** Containers *)








Section ContainerFacts.
Variable scan : list ascii -> option (json * list ascii).


End ContainerFacts.





(** *** Dictionaries with distinct keys *)




(** *** Values *)








(** ** The round trip of stage_data through the store *)



(** ** The NOT NULL constraint on the status of episodes is kept *)

Lemma episode_set_status_not_null col v e :
  v <> VNull -> Episode.status e <> VNull ->
  Episode.status (Episode.set col v e) <> VNull.
Proof.
  intros Hv He. destruct e. unfold Episode.set.
  repeat (case_decide; [done|]). done.
Qed.

Lemma episode_assign_status_not_null sets e :
  Forall (fun kv : string * value => kv.1 ∈ Episode.columns /\ kv.2 <> VNull)
    sets ->
  Episode.status e <> VNull ->
  Episode.status (assign Episode.set sets e) <> VNull.
Proof.
  intros Hsets. revert e.
  induction Hsets as [|[col v] sets [_ Hv] _ IH]; intros e He; [done|].
  unfold assign in *. cbn [foldl]. apply IH.
  by apply episode_set_status_not_null.
Qed.

Lemma cascade_status_not_null now job_id e :
  Episode.status e <> VNull ->
  Episode.status (cascade now job_id e) <> VNull.
Proof.
  intros He. unfold cascade. destruct (_ && _); [|done].
  by destruct (cancelled_fields now e) as [-> _].
Qed.

Lemma episodes_not_null_empty : episodes_not_null empty_store.
Proof. apply map_Forall_empty. Qed.

Lemma episodes_not_null_create_episode job_id episode_number title s :
  episodes_not_null s ->
  episodes_not_null (create_episode job_id episode_number title s).2.
Proof.
  intros Hnn k e. unfold create_episode.
  change (foreign_keys connect && _) with false. cbn [snd episodes].
  intros [[_ <-] | [_ Hk]]%lookup_insert_Some; [discriminate|].
  by apply (Hnn k).
Qed.

Lemma episodes_not_null_update_episode now episode_id status
    progress_percent error_message stage_data log_file s :
  episodes_not_null s ->
  episodes_not_null
    (update_episode now episode_id status progress_percent error_message
       stage_data log_file s).2.
Proof.
  intros Hnn. rewrite update_episode_eq.
  pose proof (episode_updates_ok now status progress_percent error_message
                stage_data log_file) as Hok.
  destruct (episode_updates _ _ _ _ _ _) as [|kv updates]; [done|].
  destruct (episodes s !! episode_id) as [e0|] eqn:He0; [|done].
  intros k e. cbn [snd episodes with_episodes].
  intros [[_ <-] | [_ Hk]]%lookup_insert_Some.
  - apply episode_assign_status_not_null; [done|]. by apply (Hnn episode_id).
  - by apply (Hnn k).
Qed.

Lemma episodes_not_null_cascade now job_id s :
  episodes_not_null s ->
  episodes_not_null (with_episodes (cascade now job_id <$> episodes s) s).
Proof.
  intros Hnn k e. cbn [episodes with_episodes]. rewrite lookup_fmap.
  destruct (episodes s !! k) as [e0|] eqn:Hk; [|discriminate].
  intros [= <-]. apply cascade_status_not_null. by apply (Hnn k).
Qed.

(** Every operation on jobs keeps the constraint. *)
Lemma episodes_not_null_run_op o s :
  episodes_not_null s -> episodes_not_null (run_op o s).
Proof.
  intros Hnn. destruct o; cbn [run_op].
  - done.
  - rewrite claim_job_eq. destruct (jobs s !! job_id) as [j|]; [|done].
    by destruct (is_queued j).
  - unfold start_job. change (STAGE_PROGRESS JobStage.INIT) with (Some 5).
    cbv iota beta.
    destruct (update_job_store job_id
                [("pid", VInt pid); ("log_file", VText log_file);
                 ("stage", VText JobStage.INIT); ("progress_percent", VInt 5)] s)
      as [-> | ->]; [done|].
    unfold episodes_not_null. by rewrite job_updated_episodes.
  - destruct (update_progress_eq job_id percent stage text)
      as (updates & -> & _).
    destruct (update_job_store job_id updates s) as [-> | ->]; [done|].
    unfold episodes_not_null. by rewrite job_updated_episodes.
  - destruct (update_job_store job_id kwargs s) as [-> | ->]; [done|].
    unfold episodes_not_null. by rewrite job_updated_episodes.
  - rewrite finish_job_eq. cbv zeta. destruct success; cbn [snd].
    + unfold episodes_not_null. by rewrite job_updated_episodes.
    + apply episodes_not_null_cascade.
      unfold episodes_not_null. by rewrite job_updated_episodes.
  - rewrite cancel_job_eq. cbv zeta. cbn [snd].
    apply episodes_not_null_cascade.
    unfold episodes_not_null. by rewrite job_updated_episodes.
Qed.

Lemma episodes_not_null_purge s :
  episodes_not_null s ->
  episodes_not_null (delete_all_jobs_except_running s).2.
Proof. done. Qed.

(** * Further properties of the store *)

(** ** Queries that return several rows *)

Lemma elem_of_sql_select {R} (cond : Z -> R -> bool) (t : gmap Z R) k r :
  (k, r) ∈ sql_select cond t <-> t !! k = Some r /\ cond k r = true.
Proof.
  unfold sql_select. rewrite elem_of_map_to_list.
  by rewrite map_lookup_filter_Some.
Qed.

Lemma NoDup_sql_select {R} (cond : Z -> R -> bool) (t : gmap Z R) :
  NoDup ((sql_select cond t).*1).
Proof. apply NoDup_fst_map_to_list. Qed.

Lemma sql_order_by_perm {R} (le : R -> R -> bool) (rows : list (Z * R)) :
  sql_order_by le rows ≡ₚ rows.
Proof. apply merge_sort_Permutation. Qed.

Lemma sql_order_by_sorted {R} (le : R -> R -> bool) (rows : list (Z * R)) :
  (forall a b, le a b = true \/ le b a = true) ->
  Sorted (ordered le) (sql_order_by le rows).
Proof.
  intros Htotal. apply Sorted_merge_sort.
  intros a b. apply Htotal.
Qed.

Lemma sql_le_total a b : sql_le a b = true \/ sql_le b a = true.
Proof.
  destruct a as [|x|t], b as [|y|u]; simpl; auto.
  - destruct (Z.leb_spec x y); [by left|]. right. apply Z.leb_le. lia.
  - apply String.leb_total.
Qed.





Lemma is_active_spec j :
  is_active j = true
  <-> Job.status j = VText JobStatus.QUEUED
      \/ Job.status j = VText JobStatus.RUNNING.
Proof.
  unfold is_active, sql_not_in, sql_ne, sql_eq, sql_holds.
  destruct (Job.status j) as [|z|t]; simpl.
  - split; [discriminate | intros [?|?]; discriminate].
  - split; [discriminate | intros [?|?]; discriminate].
  - repeat case_bool_decide; simpl; split; try done; try tauto;
      intros [?|?]; congruence.
Qed.

(** X1.  [get_active_jobs] returns, without writing, exactly the jobs whose
    status is QUEUED or RUNNING, each once, in ascending order of
    created_at. *)
Theorem get_active_jobs_spec (s : store) :
  exists rows,
    get_active_jobs s = (Return rows, s)
    /\ (forall k j, (k, j) ∈ rows <->
          jobs s !! k = Some j
          /\ (Job.status j = VText JobStatus.QUEUED
              \/ Job.status j = VText JobStatus.RUNNING))
    /\ NoDup (rows.*1)
    /\ Sorted (ordered created_asc) rows.
Proof.
  eexists. split; [reflexivity|]. split; [|split].
  - intros k j. rewrite sql_order_by_perm, elem_of_sql_select.
    by rewrite <- is_active_spec.
  - rewrite sql_order_by_perm. apply NoDup_sql_select.
  - apply (sql_order_by_sorted created_asc).
    intros a b. apply sql_le_total.
Qed.

Lemma get_active_jobs_elem s rows k j :
  get_active_jobs s = (Return rows, s) ->
  (k, j) ∈ rows <-> jobs s !! k = Some j /\ is_active j = true.
Proof.
  intros [= <-]. by rewrite sql_order_by_perm, elem_of_sql_select.
Qed.

Lemma get_active_jobs_returns s :
  exists rows, get_active_jobs s = (Return rows, s).
Proof. eexists. reflexivity. Qed.

Lemma terminated_job now now' job_id success error_message s s' j :
  jobs s !! job_id = Some j ->
  s' = (finish_job now now' job_id success error_message s).2
  \/ s' = (cancel_job now now' job_id s).2 ->
  (exists j', jobs s' !! job_id = Some j' /\ is_active j' = false)
  /\ forall k, k <> job_id -> jobs s' !! k = jobs s !! k.
Proof.
  intros Hj [-> | ->].
  - rewrite finish_job_jobs. split.
    + unfold job_updated. rewrite Hj. cbn [jobs with_jobs].
      rewrite lookup_insert_eq. eexists. split; [reflexivity|].
      by destruct j, success.
    + intros k Hk. by rewrite job_updated_other.
  - rewrite cancel_job_eq. cbv zeta. cbn [snd jobs with_episodes]. split.
    + unfold job_updated. rewrite Hj. cbn [jobs with_jobs].
      rewrite lookup_insert_eq. eexists. split; [reflexivity|].
      by destruct j.
    + intros k Hk. by rewrite job_updated_other.
Qed.

(** X2.  Once an existing job is finished (with success or not) or
    cancelled, [get_active_jobs] no longer returns it, and it returns every
    other job exactly as before. *)
Theorem terminated_job_leaves_active_list (now now' : string) (job_id : Z)
    (success : bool) (error_message : option string) (s s' : store)
    (j : Job.t) (rows rows' : list (Z * Job.t)) :
  jobs s !! job_id = Some j ->
  s' = (finish_job now now' job_id success error_message s).2
  \/ s' = (cancel_job now now' job_id s).2 ->
  get_active_jobs s = (Return rows, s) ->
  get_active_jobs s' = (Return rows', s') ->
  (job_id ∉ (rows'.*1))
  /\ forall k j', k <> job_id -> (k, j') ∈ rows' <-> (k, j') ∈ rows.
Proof.
  intros Hj Hs' Hrows Hrows'.
  destruct (terminated_job _ _ _ _ _ _ _ _ Hj Hs') as [(j1 & Hj1 & Hna) Hother].
  split.
  - intros [[k j'] [Hk Hin]]%list_elem_of_fmap. simpl in Hk. subst k.
    apply (get_active_jobs_elem _ _ _ _ Hrows') in Hin as [Hlook Hact].
    congruence.
  - intros k j' Hk.
    rewrite (get_active_jobs_elem _ _ _ _ Hrows'),
      (get_active_jobs_elem _ _ _ _ Hrows).
    by rewrite Hother.
Qed.

Lemma terminated_job_leaves_active_list_witness :
  let s0 := (create_job "t0" "http://a" None None empty_store).2 in
  let s := (create_job "t1" "http://b" None None s0).2 in
  let s' := (cancel_job "t2" "t3" 1 s).2 in
  exists rows rows',
    get_active_jobs s = (Return rows, s)
    /\ get_active_jobs s' = (Return rows', s')
    /\ (1 ∉ (rows'.*1)).
Proof.
  intros s0 s s'.
  assert (Hj : exists j, jobs s !! 1 = Some j).
  { eexists. vm_compute. reflexivity. }
  destruct Hj as [j Hj].
  destruct (get_active_jobs_returns s) as [rows Hrows].
  destruct (get_active_jobs_returns s') as [rows' Hrows'].
  exists rows, rows'. split; [exact Hrows|]. split; [exact Hrows'|].
  exact (proj1 (terminated_job_leaves_active_list "t2" "t3" 1 false None
                  s s' j rows rows' Hj (or_intror eq_refl) Hrows Hrows')).
Defined.




Lemma take_add {A} (n m : nat) (l : list A) :
  take (n + m) l = (take n l ++ take m (drop n l))%list.
Proof.
  revert l. induction n as [|n IH]; intros [|x l]; simpl; try done.
  - by rewrite take_nil.
  - by rewrite IH.
Qed.

(** X4.  Pages of [get_jobs] fit together: for a limit and an offset that
    are not negative, the page of [n] jobs at [offset] followed by the
    page of [m] jobs at [offset + n] is the page of [n + m] jobs at
    [offset]. *)
Theorem get_jobs_pages_concatenate (s : store) (n m offset : Z) :
  0 <= n -> 0 <= m -> 0 <= offset ->
  exists page1 page2,
    get_jobs n offset s = (Return page1, s)
    /\ get_jobs m (offset + n) s = (Return page2, s)
    /\ get_jobs (n + m) offset s = (Return (page1 ++ page2)%list, s).
Proof.
  intros Hn Hm Hoff. eexists _, _. split; [reflexivity|].
  split; [reflexivity|]. unfold get_jobs. do 2 f_equal.
  unfold sql_limit.
  rewrite !(proj2 (Z.ltb_ge _ 0)) by lia.
  rewrite !Z2Nat.inj_add by lia.
  rewrite take_add, drop_drop. done.
Qed.

Lemma get_jobs_pages_concatenate_witness :
  let s0 := (create_job "t0" "http://a" None None empty_store).2 in
  let s1 := (create_job "t1" "http://b" None None s0).2 in
  let s := (create_job "t2" "http://c" None None s1).2 in
  exists page1 page2,
    get_jobs 1 1 s = (Return page1, s)
    /\ get_jobs 2 (1 + 1) s = (Return page2, s)
    /\ get_jobs (1 + 2) 1 s = (Return (page1 ++ page2)%list, s).
Proof.
  intros s0 s1 s.
  apply (get_jobs_pages_concatenate s 1 2 1); lia.
Defined.

Lemma number_asc_total a b : number_asc a b = true \/ number_asc b a = true.
Proof.
  unfold number_asc.
  destruct (Z.leb_spec (Episode.episode_number a) (Episode.episode_number b));
    [by left|]. right. apply Z.leb_le. lia.
Qed.

(** X5.  [get_job_episodes(job_id)] writes nothing and returns exactly the
    episodes whose job_id is [job_id], each once, in ascending order of
    episode_number; whether a job with that id exists plays no part. *)
Theorem get_job_episodes_spec (s : store) (job_id : Z) :
  exists rows,
    get_job_episodes job_id s = (Return rows, s)
    /\ (forall k e, (k, e) ∈ rows <->
          episodes s !! k = Some e /\ Episode.job_id e = job_id)
    /\ NoDup (rows.*1)
    /\ Sorted (ordered number_asc) rows.
Proof.
  eexists. split; [reflexivity|]. split; [|split].
  - intros k e. rewrite sql_order_by_perm, elem_of_sql_select.
    by rewrite Z.eqb_eq.
  - rewrite sql_order_by_perm. apply NoDup_sql_select.
  - apply (sql_order_by_sorted number_asc). apply number_asc_total.
Qed.

Lemma create_episode_eq job_id episode_number title s :
  create_episode job_id episode_number title s
  = let id := next_rowid (episodes_seq s) (episodes s) in
    (Return id,
     mkStore (jobs s) (jobs_seq s)
       (<[id := Episode.mk job_id episode_number title
                  (VText EpisodeStatus.PENDING) (VInt 0)
                  VNull VNull VNull VNull VNull]> (episodes s)) id).
Proof. reflexivity. Qed.


Lemma head_merge_sort {A} (R : relation A) `{!RelDecision R} (l : list A) :
  match head (merge_sort R l) with
  | Some x => x ∈ l
  | None => l = []
  end.
Proof.
  pose proof (merge_sort_Permutation R l) as Hperm.
  destruct (merge_sort R l) as [|x l'] eqn:Hsort; simpl.
  - symmetry in Hperm. by apply Permutation_nil_r in Hperm.
  - rewrite <- Hperm. by left.
Qed.

(** X7.  [find_episode_by_number] writes nothing; it returns an episode
    with the given job_id and episode_number when the table has one, and
    None exactly when it has none. *)
Theorem find_episode_by_number_spec (s : store)
    (job_id episode_number : Z) :
  exists found,
    find_episode_by_number job_id episode_number s = (Return found, s)
    /\ match found with
       | Some (k, e) =>
           episodes s !! k = Some e
           /\ Episode.job_id e = job_id
           /\ Episode.episode_number e = episode_number
       | None =>
           forall k e, episodes s !! k = Some e ->
             Episode.job_id e = job_id ->
             Episode.episode_number e <> episode_number
       end.
Proof.
  eexists. split; [reflexivity|].
  match goal with
  | |- context [merge_sort ?R ?l] => pose proof (head_merge_sort R l) as Hhead
  end.
  destruct (head _) as [[k e]|].
  - apply elem_of_sql_select in Hhead as [Hk Hcond].
    apply andb_true_iff in Hcond as [H1 H2].
    apply Z.eqb_eq in H1, H2. done.
  - intros k e Hk Hid Hnum.
    assert (Hin : (k, e) ∈ sql_select
              (fun _ e0 => (Episode.job_id e0 =? job_id)
                           && (Episode.episode_number e0 =? episode_number))
              (episodes s)).
    { apply elem_of_sql_select. split; [done|].
      apply andb_true_iff. by rewrite !Z.eqb_eq. }
    rewrite Hhead in Hin. by apply elem_of_nil in Hin.
Qed.

(** ** New rows *)

Lemma create_job_eq now url profile extra_args s :
  create_job now url profile extra_args s
  = let id := next_rowid (jobs_seq s) (jobs s) in
    (Return id,
     mkStore
       (<[id := Job.mk (VText url) (opt_text profile) (opt_text extra_args)
                  (VText JobStatus.QUEUED) VNull (VInt 0) VNull (VText now)
                  VNull VNull VNull VNull VNull]> (jobs s))
       id (episodes s) (episodes_seq s)).
Proof. reflexivity. Qed.

(** X8.  [create_job] returns a key no job had.  [get_job] then returns
    the new job: QUEUED, progress 0, created_at the clock reading, url,
    profile and extra_args as given (None as NULL) and every other column
    NULL; [get_active_jobs] lists it; the jobs there were and all episodes
    are as before. *)
Theorem create_job_adds_one_row (s : store) (now url : string)
    (profile extra_args : option string) :
  exists id s' rows,
    create_job now url profile extra_args s = (Return id, s')
    /\ jobs s !! id = None
    /\ get_job id s'
       = (Return
            (Some (Job.mk (VText url) (opt_text profile)
                     (opt_text extra_args) (VText JobStatus.QUEUED) VNull
                     (VInt 0) VNull (VText now) VNull VNull VNull VNull
                     VNull)), s')
    /\ (forall k, k <> id -> jobs s' !! k = jobs s !! k)
    /\ episodes s' = episodes s
    /\ get_active_jobs s' = (Return rows, s')
    /\ id ∈ rows.*1.
Proof.
  rewrite create_job_eq. cbv zeta.
  set (id := next_rowid (jobs_seq s) (jobs s)).
  set (row := Job.mk _ _ _ _ _ _ _ _ _ _ _ _ _).
  eexists _, _, _. split; [reflexivity|].
  split; [apply next_rowid_fresh|].
  split; [|split; [|split; [|split]]].
  - unfold get_job. cbn [jobs]. by rewrite lookup_insert_eq.
  - intros k Hk. cbn [jobs]. by rewrite lookup_insert_ne.
  - done.
  - reflexivity.
  - apply list_elem_of_fmap. exists (id, row). split; [done|].
    rewrite sql_order_by_perm. apply elem_of_sql_select.
    cbn [jobs]. by rewrite lookup_insert_eq.
Qed.

(** ** Keys are not used twice *)

Lemma job_updated_seq k sets s :
  jobs_seq (job_updated k sets s) = jobs_seq s
  /\ episodes_seq (job_updated k sets s) = episodes_seq s.
Proof. unfold job_updated. by destruct (jobs s !! k). Qed.

Lemma update_job_seq k kwargs s :
  jobs_seq (update_job k kwargs s).2 = jobs_seq s
  /\ episodes_seq (update_job k kwargs s).2 = episodes_seq s.
Proof.
  destruct (update_job_store k kwargs s) as [-> | ->]; [done|].
  apply job_updated_seq.
Qed.

Lemma run_op_seq o s :
  jobs_seq s <= jobs_seq (run_op o s)
  /\ episodes_seq (run_op o s) = episodes_seq s.
Proof.
  destruct o; cbn [run_op].
  - rewrite create_job_eq. cbn. unfold next_rowid. split; [lia | done].
  - rewrite claim_job_eq. destruct (jobs s !! job_id) as [j|]; [|by split].
    destruct (is_queued j); by split.
  - unfold start_job. change (STAGE_PROGRESS JobStage.INIT) with (Some 5).
    cbv iota beta.
    match goal with
    | |- context [update_job ?k ?kw s] =>
        destruct (update_job_seq k kw s) as [-> ->]
    end. by split.
  - destruct (update_progress_eq job_id percent stage text)
      as (updates & -> & _).
    destruct (update_job_seq job_id updates s) as [-> ->]. by split.
  - destruct (update_job_seq job_id kwargs s) as [-> ->]. by split.
  - rewrite finish_job_eq. cbv zeta.
    destruct (job_updated_seq job_id
                (finish_kwargs now success error_message) s) as [Hj He].
    destruct success; cbn [snd jobs_seq episodes_seq with_episodes];
      rewrite Hj, He; by split.
  - rewrite cancel_job_eq. cbv zeta.
    destruct (job_updated_seq job_id (cancel_kwargs now) s) as [Hj He].
    cbn [snd jobs_seq episodes_seq with_episodes]. rewrite Hj, He. by split.
Qed.

Lemma run_action_seq a s :
  jobs_seq s <= jobs_seq (run_action a s)
  /\ episodes_seq s <= episodes_seq (run_action a s).
Proof.
  destruct a; cbn [run_action].
  - destruct (run_op_seq o s) as [Hj He]. rewrite He. split; [done | lia].
  - rewrite create_episode_eq. cbn. unfold next_rowid. split; lia.
  - rewrite update_episode_eq.
    destruct (episode_updates _ _ _ _ _ _); [by split|].
    destruct (episodes s !! episode_id); by split.
  - rewrite cancel_job_episodes_eq. by split.
  - by split.
Qed.

Lemma run_actions_seq l s :
  jobs_seq s <= jobs_seq (run_actions l s)
  /\ episodes_seq s <= episodes_seq (run_actions l s).
Proof.
  revert s. induction l as [|a l IH]; intros s; [by split|].
  unfold run_actions in *. cbn [foldl].
  destruct (run_action_seq a s), (IH (run_action a s)). split; lia.
Qed.

(** X9.  Keys are never given twice: whatever calls come in between,
    deletions included, a later [create_job] returns a larger id than an
    earlier one, and so does a later [create_episode]. *)
Theorem ids_never_reused (s : store) (l : list action)
    (now url now' url' : string) (profile extra_args profile' extra_args'
      : option string)
    (job_id episode_number job_id' episode_number' : Z)
    (title title' : string) :
  (exists id1 s1 id2 s2,
     create_job now url profile extra_args s = (Return id1, s1)
     /\ create_job now' url' profile' extra_args' (run_actions l s1)
        = (Return id2, s2)
     /\ id1 < id2)
  /\ (exists id1 s1 id2 s2,
        create_episode job_id episode_number title s = (Return id1, s1)
        /\ create_episode job_id' episode_number' title' (run_actions l s1)
           = (Return id2, s2)
        /\ id1 < id2).
Proof.
  split.
  - rewrite create_job_eq. cbv zeta. eexists _, _, _, _.
    split; [reflexivity|]. rewrite create_job_eq. cbv zeta.
    split; [reflexivity|].
    match goal with
    | |- _ < next_rowid _ (jobs (run_actions l ?s1)) =>
        destruct (run_actions_seq l s1) as [Hseq _]
    end.
    cbn [jobs_seq] in Hseq. unfold next_rowid at 2. lia.
  - rewrite create_episode_eq. cbv zeta. eexists _, _, _, _.
    split; [reflexivity|]. rewrite create_episode_eq. cbv zeta.
    split; [reflexivity|].
    match goal with
    | |- _ < next_rowid _ (episodes (run_actions l ?s1)) =>
        destruct (run_actions_seq l s1) as [_ Hseq]
    end.
    cbn [episodes_seq] in Hseq. unfold next_rowid at 2. lia.
Qed.

(** ** The NOT NULL constraints hold in every store the methods reach *)

Lemma job_set_not_null col v j :
  (bool_decide (col ∈ Job.not_null_columns) && bool_decide (v = VNull)) = false ->
  job_row_not_null j -> job_row_not_null (Job.set col v j).
Proof.
  intros Hok (Hu & Hs & Hc).
  assert (Hv : col ∈ Job.not_null_columns -> v <> VNull).
  { intros Hin Hnull. rewrite !bool_decide_eq_true_2 in Hok by done.
    discriminate. }
  clear Hok. destruct j. unfold Job.set, job_row_not_null.
  cbn [Job.url Job.status Job.created_at] in *.
  repeat (case_decide;
          [subst col; cbn [Job.url Job.status Job.created_at];
           repeat split; try done; apply Hv; repeat constructor|]).
  by repeat split.
Qed.

Lemma job_assign_not_null sets j :
  assigns_null Job.not_null_columns sets = false ->
  job_row_not_null j -> job_row_not_null (assign Job.set sets j).
Proof.
  revert j. induction sets as [|[col v] sets IH]; intros j Hok Hj; [done|].
  unfold assigns_null in Hok. cbn [existsb] in Hok.
  apply orb_false_iff in Hok as [Hhd Htl].
  unfold assign in *. cbn [foldl]. apply IH; [done|].
  by apply job_set_not_null.
Qed.

Lemma jobs_not_null_insert k j s :
  jobs_not_null s -> job_row_not_null j ->
  jobs_not_null (with_jobs (<[k := j]> (jobs s)) s).
Proof.
  intros Hs Hj. unfold jobs_not_null. cbn [jobs with_jobs].
  by apply map_Forall_insert_2.
Qed.

Lemma jobs_not_null_update_job k kwargs s :
  jobs_not_null s -> jobs_not_null (update_job k kwargs s).2.
Proof.
  intros Hs. rewrite update_job_eq. case_bool_decide; [done|].
  destruct (decide _); [|done].
  destruct (assigns_null _ _) eqn:Hnull; simpl.
  - case_bool_decide as Hsome; simpl; [done|].
    unfold job_updated.
    destruct (jobs s !! k) eqn:Hk; [|done]. destruct Hsome. eauto.
  - unfold job_updated. destruct (jobs s !! k) as [j|] eqn:Hk; [|done].
    apply jobs_not_null_insert; [done|].
    apply job_assign_not_null; [done|]. by apply (Hs k).
Qed.

Lemma jobs_not_null_with_episodes es s :
  jobs_not_null s -> jobs_not_null (with_episodes es s).
Proof. done. Qed.

Lemma jobs_not_null_run_op o s :
  jobs_not_null s -> jobs_not_null (run_op o s).
Proof.
  intros Hs. destruct o; cbn [run_op].
  - rewrite create_job_eq. cbv zeta. unfold jobs_not_null. cbn [snd jobs].
    apply map_Forall_insert_2; [|done]. by repeat split.
  - rewrite claim_job_eq. destruct (jobs s !! job_id) as [j|] eqn:Hj; [|done].
    destruct (is_queued j); [|done]. cbn [snd].
    apply jobs_not_null_insert; [done|].
    destruct (Hs job_id j Hj) as (Hu & _ & Hc). by destruct j.
  - unfold start_job. change (STAGE_PROGRESS JobStage.INIT) with (Some 5).
    cbv iota beta. by apply jobs_not_null_update_job.
  - destruct (update_progress_eq job_id percent stage text)
      as (updates & -> & _).
    by apply jobs_not_null_update_job.
  - by apply jobs_not_null_update_job.
  - unfold jobs_not_null. rewrite finish_job_jobs. unfold job_updated.
    destruct (jobs s !! job_id) as [j|] eqn:Hj; [|done].
    cbn [jobs with_jobs]. apply map_Forall_insert_2; [|done].
    destruct (Hs job_id j Hj) as (Hu & _ & Hc). by destruct j, success.
  - rewrite cancel_job_eq. cbv zeta. cbn [snd].
    apply jobs_not_null_with_episodes. unfold job_updated.
    destruct (jobs s !! job_id) as [j|] eqn:Hj; [|done].
    apply jobs_not_null_insert; [done|].
    destruct (Hs job_id j Hj) as (Hu & _ & Hc). by destruct j.
Qed.

Lemma not_null_run_action a s :
  jobs_not_null s /\ episodes_not_null s ->
  jobs_not_null (run_action a s) /\ episodes_not_null (run_action a s).
Proof.
  intros [Hj He]. destruct a; cbn [run_action].
  - split; [by apply jobs_not_null_run_op | by apply episodes_not_null_run_op].
  - split; [by rewrite create_episode_eq
           | by apply episodes_not_null_create_episode].
  - split; [|by apply episodes_not_null_update_episode].
    rewrite update_episode_eq.
    destruct (episode_updates _ _ _ _ _ _); [done|].
    by destruct (episodes s !! episode_id).
  - rewrite cancel_job_episodes_eq. cbn [snd].
    split; [done | by apply episodes_not_null_cascade].
  - split; [|done]. intros k j Hk. cbn in Hk.
    apply map_lookup_filter_Some in Hk as [Hk _]. by apply (Hj k).
Qed.

(** X10.  The NOT NULL constraints of the schema hold in every store that
    calls of the methods reach from an empty database: no job has a NULL
    url, status or created_at and no episode a NULL status. *)
Theorem reachable_stores_keep_not_null (l : list action) :
  jobs_not_null (run_actions l empty_store)
  /\ episodes_not_null (run_actions l empty_store).
Proof.
  assert (Hgen : forall s, jobs_not_null s /\ episodes_not_null s ->
            jobs_not_null (run_actions l s)
            /\ episodes_not_null (run_actions l s)).
  { induction l as [|a l IH]; intros s Hs; [done|].
    unfold run_actions in *. cbn [foldl]. by apply IH, not_null_run_action. }
  apply Hgen. split; [apply map_Forall_empty | apply episodes_not_null_empty].
Qed.

(** ** What no method does *)

Lemma episode_set_same col v e : same_episode e (Episode.set col v e).
Proof.
  destruct e. unfold Episode.set, same_episode.
  repeat (case_decide; [done|]). done.
Qed.

Lemma episode_assign_same sets e : same_episode e (assign Episode.set sets e).
Proof.
  revert e. induction sets as [|[col v] sets IH]; intros e; [done|].
  unfold assign in *. cbn [foldl].
  destruct (IH (Episode.set col v e)) as (H1 & H2 & H3).
  destruct (episode_set_same col v e) as (G1 & G2 & G3).
  unfold same_episode. by rewrite H1, H2, H3.
Qed.

Lemma cascade_same now job_id e : same_episode e (cascade now job_id e).
Proof.
  unfold cascade. destruct (_ && _); [|done].
  pose proof (cancelled_fields now e). unfold same_episode. tauto.
Qed.

Lemma run_op_episode o s k e :
  episodes s !! k = Some e ->
  exists e', episodes (run_op o s) !! k = Some e' /\ same_episode e e'.
Proof.
  intros Hk.
  assert (Hcascade : forall now job_id s1,
            episodes s1 = episodes s ->
            exists e', (cascade now job_id <$> episodes s1) !! k = Some e'
                       /\ same_episode e e').
  { intros now job_id s1 ->. rewrite lookup_fmap, Hk. simpl.
    eexists. split; [done|]. apply cascade_same. }
  assert (Hsame : exists e', episodes s !! k = Some e' /\ same_episode e e')
    by (by exists e).
  destruct o; cbn [run_op].
  - done.
  - rewrite claim_job_eq. destruct (jobs s !! job_id) as [j|]; [|done].
    by destruct (is_queued j).
  - unfold start_job. change (STAGE_PROGRESS JobStage.INIT) with (Some 5).
    cbv iota beta.
    match goal with
    | |- context [update_job ?i ?kw s] =>
        destruct (update_job_store i kw s) as [-> | ->]
    end; [done|]. by rewrite job_updated_episodes.
  - destruct (update_progress_eq job_id percent stage text)
      as (updates & -> & _).
    destruct (update_job_store job_id updates s) as [-> | ->]; [done|].
    by rewrite job_updated_episodes.
  - destruct (update_job_store job_id kwargs s) as [-> | ->]; [done|].
    by rewrite job_updated_episodes.
  - rewrite finish_job_eq. cbv zeta.
    destruct success; cbn [snd episodes with_episodes].
    + by rewrite job_updated_episodes.
    + apply Hcascade, job_updated_episodes.
  - rewrite cancel_job_eq. cbv zeta. cbn [snd episodes with_episodes].
    apply Hcascade, job_updated_episodes.
Qed.

Lemma run_action_episode a s k e :
  episodes s !! k = Some e ->
  exists e', episodes (run_action a s) !! k = Some e' /\ same_episode e e'.
Proof.
  intros Hk. destruct a; cbn [run_action].
  - by apply run_op_episode.
  - rewrite create_episode_eq. cbv zeta. cbn [snd episodes].
    rewrite lookup_insert_ne; [by exists e|].
    intros Heq. rewrite <- Heq, next_rowid_fresh in Hk. discriminate.
  - rewrite update_episode_eq.
    destruct (episode_updates _ _ _ _ _ _) as [|kv updates]; [by exists e|].
    destruct (episodes s !! episode_id) as [e0|] eqn:He0; [|by exists e].
    cbn [snd episodes with_episodes].
    destruct (decide (episode_id = k)) as [->|Hne].
    + rewrite lookup_insert_eq. eexists. split; [done|].
      assert (e0 = e) as -> by congruence. apply episode_assign_same.
    + rewrite lookup_insert_ne by done. by exists e.
  - rewrite cancel_job_episodes_eq. cbn [snd episodes with_episodes].
    rewrite lookup_fmap, Hk. simpl. eexists. split; [done|].
    apply cascade_same.
  - by exists e.
Qed.

(** X11.  No call removes an episode or moves it to another job: an
    episode that is stored stays stored under the same id, with the same
    job_id, episode_number and title, through every sequence of calls of
    the methods, the purge of jobs included. *)
Theorem episodes_are_never_removed (l : list action) (s : store) (k : Z)
    (e : Episode.t) :
  episodes s !! k = Some e ->
  exists e',
    episodes (run_actions l s) !! k = Some e' /\ same_episode e e'.
Proof.
  revert s e. induction l as [|a l IH]; intros s e Hk; [by exists e|].
  unfold run_actions in *. cbn [foldl].
  destruct (run_action_episode a s k e Hk) as (e1 & Hk1 & H1 & H2 & H3).
  destruct (IH _ _ Hk1) as (e2 & Hk2 & G1 & G2 & G3).
  exists e2. split; [done|]. unfold same_episode. by rewrite G1, G2, G3.
Qed.

Lemma episodes_are_never_removed_witness :
  let s0 := (create_job "t0" "http://a" None None empty_store).2 in
  let s := (create_episode 1 7 "seven" s0).2 in
  let l := [AJob (OpCancel "t1" "t2" 1); ADeleteAllJobsExceptRunning;
            AUpdateEpisode "t3" 1 (Some EpisodeStatus.PENDING) (Some 3)
              None None None] in
  jobs (run_actions l s) !! 1 = None
  /\ exists e',
       episodes (run_actions l s) !! 1 = Some e'
       /\ same_episode
            (Episode.mk 1 7 "seven" (VText EpisodeStatus.PENDING) (VInt 0)
               VNull VNull VNull VNull VNull) e'.
Proof.
  intros s0 s l. split; [vm_compute; reflexivity|].
  apply (episodes_are_never_removed l s 1). vm_compute. reflexivity.
Defined.

Lemma job_updated_dom k sets s :
  dom (jobs (job_updated k sets s)) = dom (jobs s).
Proof.
  unfold job_updated. destruct (jobs s !! k) as [j|] eqn:Hk; [|done].
  cbn [jobs with_jobs]. apply dom_insert_lookup_L. eauto.
Qed.

Lemma update_job_dom k kwargs s :
  dom (jobs (update_job k kwargs s).2) = dom (jobs s).
Proof.
  destruct (update_job_store k kwargs s) as [-> | ->]; [done|].
  apply job_updated_dom.
Qed.

(** X12.  Only [create_job] adds a job and only
    [delete_all_jobs_except_running] removes one: every other call leaves
    the set of job ids as it was.  In particular an update, a claim, a
    finish or a cancel addressed to an id that no job has creates no
    row. *)
Theorem only_create_and_purge_change_the_job_ids (a : action) (s : store) :
  creates_job a = false -> deletes_jobs a = false ->
  dom (jobs (run_action a s)) = dom (jobs s).
Proof.
  intros Hc Hd. destruct a as [o| | | |]; try discriminate; cbn [run_action].
  - destruct o; try discriminate; cbn [run_op].
    + rewrite claim_job_eq. destruct (jobs s !! job_id) as [j|] eqn:Hj; [|done].
      destruct (is_queued j); [|done]. cbn [snd jobs with_jobs].
      apply dom_insert_lookup_L. eauto.
    + unfold start_job. change (STAGE_PROGRESS JobStage.INIT) with (Some 5).
      cbv iota beta. apply update_job_dom.
    + destruct (update_progress_eq job_id percent stage text)
        as (updates & -> & _). apply update_job_dom.
    + apply update_job_dom.
    + rewrite finish_job_jobs. apply job_updated_dom.
    + rewrite cancel_job_eq. cbv zeta. cbn [snd jobs with_episodes].
      apply job_updated_dom.
  - by rewrite create_episode_eq.
  - rewrite update_episode_eq.
    destruct (episode_updates _ _ _ _ _ _); [done|].
    by destruct (episodes s !! episode_id).
  - by rewrite cancel_job_episodes_eq.
Qed.

Lemma only_create_and_purge_change_the_job_ids_witness :
  let s := (create_job "t0" "http://a" None None empty_store).2 in
  dom (jobs (run_action (AJob (OpFinish "t1" "t2" 5 false None)) s))
  = dom (jobs s).
Proof.
  intros s.
  apply (only_create_and_purge_change_the_job_ids
           (AJob (OpFinish "t1" "t2" 5 false None)) s); reflexivity.
Defined.

(** ** The purge *)

Lemma is_running_spec j :
  is_running j = true <-> Job.status j = VText JobStatus.RUNNING.
Proof.
  unfold is_running, sql_eq, sql_holds.
  destruct (Job.status j) as [|z|t]; try (split; [done | discriminate]);
    case_bool_decide; split; done.
Qed.

Lemma is_not_running_spec j :
  Job.status j <> VNull ->
  is_not_running j = negb (is_running j).
Proof.
  unfold is_not_running, is_running, sql_ne, sql_eq, sql_holds.
  destruct (Job.status j) as [|z|t]; [done| |]; intros _; simpl;
    try case_bool_decide; done.
Qed.

Lemma purge_eq s :
  delete_all_jobs_except_running s
  = (Return
       (Z.of_nat (size (filter (fun kj : Z * Job.t => is_not_running kj.2 = true)
                          (jobs s))),
        Z.of_nat (size (filter (fun kj : Z * Job.t => is_running kj.2 = true)
                          (jobs s)))),
     mkStore
       (filter (fun kj : Z * Job.t => is_not_running kj.2 = false) (jobs s))
       (jobs_seq s) (episodes s) (episodes_seq s)).
Proof. reflexivity. Qed.

Lemma filter_not_running (t : gmap Z Job.t) :
  map_Forall (fun _ j => job_row_not_null j) t ->
  filter (fun kj : Z * Job.t => is_not_running kj.2 = true) t
  = filter (fun kj : Z * Job.t => ~ is_running kj.2 = true) t
  /\ filter (fun kj : Z * Job.t => is_not_running kj.2 = false) t
     = filter (fun kj : Z * Job.t => is_running kj.2 = true) t.
Proof.
  intros Hnn. split; apply map_filter_ext; intros k j Hk; simpl;
    destruct (Hnn k j Hk) as (_ & Hs & _);
    rewrite (is_not_running_spec j Hs); destruct (is_running j); simpl;
    split; try done; try discriminate; intros H; by destruct H.
Qed.

Lemma size_filter_complement {A} (P : Z * A -> Prop)
    `{!forall x, Decision (P x)} (t : gmap Z A) :
  (size (filter P t) + size (filter (fun x => ~ P x) t) = size t)%nat.
Proof.
  rewrite <- map_size_disj_union by apply map_disjoint_filter_complement.
  by rewrite map_filter_union_complement.
Qed.

(** X13.  On a store that satisfies the NOT NULL constraints,
    [delete_all_jobs_except_running] returns the number of jobs that are
    not RUNNING and the number that are, which add up to the number of
    jobs; the jobs it leaves are exactly the RUNNING ones, unchanged; a
    second call deletes nothing and returns the same skipped count. *)
Theorem purge_deletes_all_but_running (s : store) :
  jobs_not_null s ->
  exists deleted skipped s',
    delete_all_jobs_except_running s = (Return (deleted, skipped), s')
    /\ skipped
       = Z.of_nat (size (filter (fun kj : Z * Job.t =>
                                   Job.status kj.2 = VText JobStatus.RUNNING)
                           (jobs s)))
    /\ deleted + skipped = Z.of_nat (size (jobs s))
    /\ (forall k j, jobs s' !! k = Some j <->
          jobs s !! k = Some j /\ Job.status j = VText JobStatus.RUNNING)
    /\ delete_all_jobs_except_running s' = (Return (0, skipped), s').
Proof.
  intros Hnn. rewrite purge_eq. eexists _, _, _. split; [reflexivity|].
  destruct (filter_not_running (jobs s) Hnn) as [Hdel Hkeep].
  rewrite Hdel, Hkeep.
  set (running := filter (fun kj : Z * Job.t => is_running kj.2 = true) (jobs s)).
  split; [|split; [|split]].
  - f_equal. f_equal. apply map_filter_ext. intros k j _. simpl.
    apply is_running_spec.
  - pose proof (size_filter_complement
                  (fun kj : Z * Job.t => is_running kj.2 = true) (jobs s)).
    fold running in H. lia.
  - intros k j. cbn [jobs]. unfold running.
    rewrite map_lookup_filter_Some. simpl. by rewrite is_running_spec.
  - rewrite purge_eq. cbn [jobs jobs_seq episodes episodes_seq].
    assert (Hnn' : map_Forall (fun _ j => job_row_not_null j) running).
    { intros k j [Hk _]%map_lookup_filter_Some. by apply (Hnn k). }
    destruct (filter_not_running running Hnn') as [Hdel' Hkeep'].
    rewrite Hdel', Hkeep'.
    assert (Hidem : filter (fun kj : Z * Job.t => is_running kj.2 = true) running
                    = running).
    { apply map_filter_id. by intros k j [_ ?]%map_lookup_filter_Some. }
    assert (Hnone : filter (fun kj : Z * Job.t => ~ is_running kj.2 = true) running
                    = ∅).
    { apply map_empty. intros k. apply map_lookup_filter_None. right.
      intros j [_ Hr]%map_lookup_filter_Some Hnot. by apply Hnot. }
    by rewrite Hidem, Hnone, map_size_empty.
Qed.

Lemma purge_deletes_all_but_running_witness :
  let s0 := (create_job "t0" "http://a" None None empty_store).2 in
  let s1 := (create_job "t1" "http://b" None None s0).2 in
  let s := (claim_job "t2" 1 s1).2 in
  exists s',
    delete_all_jobs_except_running s = (Return (1, 1), s')
    /\ delete_all_jobs_except_running s' = (Return (0, 1), s').
Proof.
  intros s0 s1 s.
  assert (Hnn : jobs_not_null s).
  { apply (bool_decide_unpack _). vm_compute. exact I. }
  destruct (purge_deletes_all_but_running s Hnn)
    as (deleted & skipped & s' & Hrun & Hskip & Hsum & _ & Hagain).
  assert (Hs : skipped = 1) by (rewrite Hskip; vm_compute; reflexivity).
  assert (Hd : deleted = 1).
  { assert (Hsize : Z.of_nat (size (jobs s)) = 2) by (vm_compute; reflexivity).
    lia. }
  subst. by exists s'.
Defined.

(** ** What update_job writes *)





Lemma assigns_null_true nn (sets : list (string * value)) col :
  col ∈ nn -> (col, VNull) ∈ sets -> assigns_null nn sets = true.
Proof.
  intros Hcol Hin. unfold assigns_null. apply existsb_exists.
  exists (col, VNull). split; [by apply list_elem_of_In|].
  by rewrite !bool_decide_eq_true_2.
Qed.



(** X15.  On an existing job, [update_job] with allow-listed fields that
    passes None for url, status or created_at raises the integrity error
    of the NOT NULL constraint, and nothing is written, not even the other
    fields of the call. *)
Theorem update_job_null_in_not_null_column (job_id : Z)
    (kwargs : list (string * value)) (s : store) (j : Job.t) (col : string) :
  jobs s !! job_id = Some j ->
  (forall c, c ∈ kwargs.*1 -> c ∈ VALID_COLUMNS) ->
  col ∈ Job.not_null_columns ->
  (col, VNull) ∈ kwargs ->
  update_job job_id kwargs s = (Raise IntegrityError, s).
Proof.
  intros Hj Hvalid Hcol Hin. rewrite update_job_eq.
  rewrite bool_decide_eq_false_2
    by (intros ->; by apply elem_of_nil in Hin).
  destruct (decide _) as [_|Hbad];
    [|destruct Hbad; by apply no_invalid_columns].
  rewrite (assigns_null_true _ _ col Hcol Hin).
  by rewrite bool_decide_eq_true_2 by eauto.
Qed.

Lemma update_job_null_in_not_null_column_witness :
  let s := (create_job "t0" "http://a" None None empty_store).2 in
  update_job 1 [("progress_percent", VInt 50); ("status", VNull)] s
  = (Raise IntegrityError, s).
Proof.
  intros s.
  assert (Hj : exists j, jobs s !! 1 = Some j).
  { eexists. vm_compute. reflexivity. }
  destruct Hj as [j Hj].
  apply (update_job_null_in_not_null_column 1 _ s j "status" Hj).
  - intros c Hc. simpl in Hc.
    repeat (apply elem_of_cons in Hc as [->|Hc];
            [apply (bool_decide_unpack _); vm_compute; exact I|]).
    by apply elem_of_nil in Hc.
  - apply (bool_decide_unpack _). vm_compute. exact I.
  - apply (bool_decide_unpack _). vm_compute. exact I.
Defined.

(** ** The rows the job methods write *)

Lemma update_job_ok job_id kwargs s j :
  jobs s !! job_id = Some j ->
  kwargs <> [] ->
  (forall col, col ∈ kwargs.*1 -> col ∈ VALID_COLUMNS) ->
  assigns_null Job.not_null_columns kwargs = false ->
  update_job job_id kwargs s
  = (Return tt,
     with_jobs (<[job_id := assign Job.set kwargs j]> (jobs s)) s).
Proof.
  intros Hj Hne Hvalid Hnull. rewrite update_job_eq.
  rewrite bool_decide_eq_false_2 by done.
  destruct (decide _) as [_|Hbad];
    [|destruct Hbad; by apply no_invalid_columns].
  rewrite Hnull. cbn. unfold job_updated. by rewrite Hj.
Qed.

Ltac valid_columns :=
  let col := fresh "col" in
  let Hcol := fresh "Hcol" in
  intros col Hcol; simpl in Hcol;
  repeat (apply elem_of_cons in Hcol as [->|Hcol];
          [apply (bool_decide_unpack _); vm_compute; exact I|]);
  by apply elem_of_nil in Hcol.



Lemma start_job_row job_id pid log_file s j :
  jobs s !! job_id = Some j ->
  start_job job_id pid log_file s
  = (Return tt,
     with_jobs
       (<[job_id :=
            Job.mk (Job.url j) (Job.profile j) (Job.extra_args j)
              (Job.status j) (VText JobStage.INIT) (VInt 5)
              (Job.progress_text j) (Job.created_at j) (Job.started_at j)
              (Job.finished_at j) (Job.error_message j) (VText log_file)
              (VInt pid)]> (jobs s)) s).
Proof.
  intros Hj. unfold start_job.
  change (STAGE_PROGRESS JobStage.INIT) with (Some 5). cbv iota beta.
  rewrite (update_job_ok _ _ _ j Hj);
    [by destruct j | discriminate | valid_columns | reflexivity].
Qed.

(** X17.  The handshake of a worker: on a QUEUED job, [claim_job] returns
    true and the [start_job] that follows returns without error; the job
    is then RUNNING with started_at the clock reading of the claim, stage
    "init", progress 5 and the pid and log file given, its other columns,
    the other jobs and the episodes being as before. *)
Theorem claim_then_start (now : string) (job_id pid : Z) (log_file : string)
    (s : store) (j : Job.t) :
  jobs s !! job_id = Some j ->
  Job.status j = VText JobStatus.QUEUED ->
  exists s1,
    claim_job now job_id s = (Return true, s1)
    /\ start_job job_id pid log_file s1
       = (Return tt,
          with_jobs
            (<[job_id :=
                 Job.mk (Job.url j) (Job.profile j) (Job.extra_args j)
                   (VText JobStatus.RUNNING) (VText JobStage.INIT) (VInt 5)
                   (Job.progress_text j) (Job.created_at j) (VText now)
                   (Job.finished_at j) (Job.error_message j)
                   (VText log_file) (VInt pid)]> (jobs s)) s).
Proof.
  intros Hj Hq. eexists. rewrite claim_job_eq, Hj.
  rewrite (proj2 (is_queued_spec j) Hq). split; [reflexivity|].
  rewrite (start_job_row _ _ _ _ (claimed now j))
    by (cbn [jobs with_jobs]; apply lookup_insert_eq).
  cbn [jobs with_jobs]. unfold with_jobs. cbn.
  rewrite insert_insert_eq. by destruct j.
Qed.

Lemma claim_then_start_witness :
  let s := (create_job "t0" "http://a" None None empty_store).2 in
  exists s1 s2,
    claim_job "t1" 1 s = (Return true, s1)
    /\ start_job 1 4242 "job.log" s1 = (Return tt, s2)
    /\ Job.status <$> jobs s2 !! 1 = Some (VText JobStatus.RUNNING)
    /\ Job.progress_percent <$> jobs s2 !! 1 = Some (VInt 5).
Proof.
  intros s.
  assert (Hj : exists j, jobs s !! 1 = Some j
                         /\ Job.status j = VText JobStatus.QUEUED).
  { eexists. split; vm_compute; reflexivity. }
  destruct Hj as (j & Hj & Hq).
  destruct (claim_then_start "t1" 1 4242 "job.log" s j Hj Hq)
    as (s1 & Hclaim & Hstart).
  eexists s1, _. split; [exact Hclaim|]. split; [exact Hstart|].
  cbn [jobs with_jobs]. rewrite lookup_insert_eq. by split.
Defined.

(** X18.  On an existing job, [finish_job] with success=True returns
    without error; the job is then SUCCESS with progress 100, stage
    "done", finished_at the clock reading and error_message the argument
    (NULL when it is None, which erases an earlier message); its other
    columns and the other jobs are as before, and no episode is touched,
    not even one that is still PENDING or active. *)
Theorem finish_job_success_row (now now' : string) (job_id : Z)
    (error_message : option string) (s : store) (j : Job.t) :
  jobs s !! job_id = Some j ->
  finish_job now now' job_id true error_message s
  = (Return tt,
     with_jobs
       (<[job_id :=
            Job.mk (Job.url j) (Job.profile j) (Job.extra_args j)
              (VText JobStatus.SUCCESS) (VText JobStage.DONE) (VInt 100)
              (Job.progress_text j) (Job.created_at j) (Job.started_at j)
              (VText now) (opt_text error_message) (Job.log_file j)
              (Job.pid j)]> (jobs s)) s).
Proof.
  intros Hj. rewrite finish_job_eq. cbv zeta iota.
  unfold job_updated. rewrite Hj. by destruct j.
Qed.

Lemma finish_job_success_row_witness :
  let s0 := (create_job "t0" "http://a" None None empty_store).2 in
  let s := (create_episode 1 1 "one" s0).2 in
  let r := finish_job "t1" "t2" 1 true None s in
  r.1 = Return tt
  /\ Job.status <$> jobs r.2 !! 1 = Some (VText JobStatus.SUCCESS)
  /\ episodes r.2 = episodes s.
Proof.
  intros s0 s r.
  assert (Hj : exists j, jobs s !! 1 = Some j).
  { eexists. vm_compute. reflexivity. }
  destruct Hj as [j Hj]. unfold r.
  rewrite (finish_job_success_row "t1" "t2" 1 None s j Hj).
  cbn [fst snd jobs episodes with_jobs]. rewrite lookup_insert_eq. by split.
Defined.

(** X19.  On an existing job, [cancel_job] returns without error; it
    sets the status to CANCELED and finished_at to its clock reading and
    leaves every other column of the job as it was: progress, stage and
    error_message are kept.  The other jobs are as before and the episodes
    are those the cascade leaves. *)
Theorem cancel_job_row (now now' : string) (job_id : Z) (s : store)
    (j : Job.t) :
  jobs s !! job_id = Some j ->
  cancel_job now now' job_id s
  = (Return tt,
     mkStore
       (<[job_id :=
            Job.mk (Job.url j) (Job.profile j) (Job.extra_args j)
              (VText JobStatus.CANCELED) (Job.stage j)
              (Job.progress_percent j) (Job.progress_text j)
              (Job.created_at j) (Job.started_at j) (VText now)
              (Job.error_message j) (Job.log_file j) (Job.pid j)]>
          (jobs s))
       (jobs_seq s)
       (cascade now' job_id <$> episodes s)
       (episodes_seq s)).
Proof.
  intros Hj. rewrite cancel_job_eq. cbv zeta.
  unfold job_updated. rewrite Hj. by destruct j.
Qed.

Lemma cancel_job_row_witness :
  let s0 := (create_job "t0" "http://a" None None empty_store).2 in
  let s := (update_progress 1 30 (Some JobStage.DOWNLOAD) None s0).2 in
  let r := cancel_job "t1" "t2" 1 s in
  r.1 = Return tt
  /\ Job.status <$> jobs r.2 !! 1 = Some (VText JobStatus.CANCELED)
  /\ Job.progress_percent <$> jobs r.2 !! 1 = Some (VInt 30)
  /\ Job.stage <$> jobs r.2 !! 1 = Some (VText JobStage.DOWNLOAD).
Proof.
  intros s0 s r.
  assert (Hj : exists j, jobs s !! 1 = Some j
                 /\ Job.progress_percent j = VInt 30
                 /\ Job.stage j = VText JobStage.DOWNLOAD).
  { eexists. repeat split; vm_compute; reflexivity. }
  destruct Hj as (j & Hj & Hp & Hst). unfold r.
  rewrite (cancel_job_row "t1" "t2" 1 s j Hj).
  cbn [fst snd jobs]. rewrite lookup_insert_eq. cbn. by rewrite Hp, Hst.
Defined.

(** ** The rows the episode methods write *)

(** X20.  [cancel_job_episodes] returns without error and touches only
    the episodes of the given job: the jobs and the episodes of every
    other job are as before.  On an episode it fails it changes status,
    error_message (an earlier message is overwritten) and finished_at, and
    nothing else: progress_percent, stage_data, started_at and log_file
    keep their values. *)
Theorem cancel_job_episodes_frame (now : string) (job_id : Z) (s : store) :
  exists s',
    cancel_job_episodes now job_id s = (Return tt, s')
    /\ jobs s' = jobs s
    /\ dom (episodes s') = dom (episodes s)
    /\ forall k e, episodes s !! k = Some e ->
         exists e',
           episodes s' !! k = Some e'
           /\ same_episode e e'
           /\ Episode.progress_percent e' = Episode.progress_percent e
           /\ Episode.stage_data e' = Episode.stage_data e
           /\ Episode.started_at e' = Episode.started_at e
           /\ Episode.log_file e' = Episode.log_file e
           /\ (Episode.job_id e <> job_id -> e' = e).
Proof.
  rewrite cancel_job_episodes_eq. eexists. split; [reflexivity|].
  cbn [jobs episodes with_episodes]. split; [done|].
  split; [apply dom_fmap_L|].
  intros k e Hk. rewrite lookup_fmap, Hk. simpl.
  eexists. split; [reflexivity|].
  split; [apply cascade_same|].
  assert (Hcols : Episode.progress_percent (cascade now job_id e)
                  = Episode.progress_percent e
                  /\ Episode.stage_data (cascade now job_id e)
                     = Episode.stage_data e
                  /\ Episode.started_at (cascade now job_id e)
                     = Episode.started_at e
                  /\ Episode.log_file (cascade now job_id e)
                     = Episode.log_file e).
  { unfold cascade. destruct (_ && _); [|done].
    pose proof (cancelled_fields now e). tauto. }
  destruct Hcols as (H1 & H2 & H3 & H4).
  repeat split; try done. by apply cascade_other.
Qed.

(** X21.  On an existing episode, [update_episode] returns without error
    and writes the columns its arguments name, an empty string included:
    status, error_message, stage_data (as JSON text) and log_file hold the
    argument when there is one and their old value when it is None;
    progress_percent holds the argument, else 100 when the status is
    "complete", else its old value; finished_at becomes the clock reading
    when the status is "complete" or "failed" and is kept otherwise.
    job_id, episode_number and title, the other episodes and the jobs are
    as before. *)
Theorem update_episode_columns (now : string) (episode_id : Z)
    (status : option string) (progress_percent : option Z)
    (error_message : option string)
    (stage_data : option (list (string * json))) (log_file : option string)
    (s : store) (e : Episode.t) :
  episodes s !! episode_id = Some e ->
  exists e',
    update_episode now episode_id status progress_percent error_message
      stage_data log_file s
    = (Return tt, with_episodes (<[episode_id := e']> (episodes s)) s)
    /\ same_episode e e'
    /\ Episode.status e'
       = match status with Some st => VText st | None => Episode.status e end
    /\ Episode.error_message e'
       = match error_message with
         | Some m => VText m
         | None => Episode.error_message e
         end
    /\ Episode.stage_data e'
       = match stage_data with
         | Some d => VText (Json.dumps (JDict d))
         | None => Episode.stage_data e
         end
    /\ Episode.log_file e'
       = match log_file with
         | Some f => VText f
         | None => Episode.log_file e
         end
    /\ Episode.progress_percent e'
       = match progress_percent, status with
         | Some p, _ => VInt p
         | None, Some st =>
             if decide (st = EpisodeStatus.COMPLETE) then VInt 100
             else Episode.progress_percent e
         | None, None => Episode.progress_percent e
         end
    /\ Episode.finished_at e'
       = match status with
         | Some st =>
             if decide (st = EpisodeStatus.COMPLETE
                        \/ st = EpisodeStatus.FAILED)
             then VText now else Episode.finished_at e
         | None => Episode.finished_at e
         end.
Proof.
  intros He.
  exists (assign Episode.set
            (episode_updates now status progress_percent error_message
               stage_data log_file) e).
  split.
  - rewrite update_episode_eq, He.
    destruct (episode_updates _ _ _ _ _ _) as [|kv updates] eqn:Hupd;
      [|done].
    cbn. rewrite insert_id by done. by destruct s.
  - split; [apply episode_assign_same|].
    unfold episode_updates.
    destruct status as [st|].
    + destruct (decide (st = EpisodeStatus.COMPLETE)) as [->|Hc].
      * rewrite decide_True by (by left).
        destruct progress_percent, error_message, stage_data, log_file, e;
          repeat split; reflexivity.
      * destruct (decide (st = EpisodeStatus.FAILED)) as [->|Hf].
        -- rewrite decide_True by (by right).
           destruct progress_percent, error_message, stage_data, log_file, e;
             repeat split; reflexivity.
        -- rewrite decide_False by tauto.
           destruct (is_active_status st);
             destruct progress_percent, error_message, stage_data, log_file, e;
             repeat split; reflexivity.
    + destruct progress_percent, error_message, stage_data, log_file, e;
        repeat split; reflexivity.
Qed.

Lemma update_episode_columns_witness :
  let s := (create_episode 1 1 "one" empty_store).2 in
  let r := update_episode "t1" 1 (Some EpisodeStatus.FAILED) None (Some "")
             None None s in
  r.1 = Return tt
  /\ Episode.status <$> episodes r.2 !! 1
     = Some (VText EpisodeStatus.FAILED)
  /\ Episode.error_message <$> episodes r.2 !! 1 = Some (VText "")
  /\ Episode.finished_at <$> episodes r.2 !! 1 = Some (VText "t1")
  /\ Episode.progress_percent <$> episodes r.2 !! 1 = Some (VInt 0).
Proof.
  intros s r.
  assert (He : exists e, episodes s !! 1 = Some e
                         /\ Episode.progress_percent e = VInt 0).
  { eexists. split; vm_compute; reflexivity. }
  destruct He as (e & He & Hp).
  destruct (update_episode_columns "t1" 1 (Some EpisodeStatus.FAILED) None
              (Some "") None None s e He)
    as (e' & Hrun & _ & Hst & Hmsg & _ & _ & Hpp & Hfin).
  unfold r. rewrite Hrun. cbn [fst snd episodes with_episodes].
  rewrite lookup_insert_eq. cbn [fmap option_fmap option_map].
  rewrite Hst, Hmsg, Hpp, Hfin, Hp. by repeat split.
Defined.
